(** * Wake-on-demand proxy (src/server.js): model and verification

    The proxy listens on the game port, looks at the first chunk a client
    sends and, when the backing server is down, restarts its deployment
    through the control-plane API.  The shared state is the pair of module
    variables [restarting] / [lastWake]; connection handlers are [async]
    functions that interleave at their [await]s on Node's single thread.

    Layout of the development:
    - [Js]      : the fragment of JavaScript values the code manipulates
                  (parsed JSON, [undefined], property access, truthiness,
                  abrupt completion);
    - [Config]  : the start-up configuration check (lines 8-19, 190);
    - [Http]    : replies of the outbound requests and the three wrappers
                  [isServerRunning], [fetchLatestDeployment],
                  [restartDeployment] (lines 29-125);
    - [Proxy]   : the connection handler as an event-driven transition
                  system over the shared state (lines 128-188);
    - theorems.

    What the model takes for granted: [Date.now()] never goes backwards;
    a run of synchronous code takes no time (the clock moves between
    turns of the event loop only); a timer fires no earlier than its
    delay; writing to and closing a socket never fails; console output is
    left out. *)

From Stdlib Require Import ZArith Ascii String List Bool Lia.
From stdpp Require Import base option gmap strings list fin_maps.

Local Set Warnings "-register-all".
Local Open Scope Z_scope.
Local Open Scope string_scope.
Local Open Scope list_scope.

(* ===================================================================== *)
(** ** JavaScript values *)
(* ===================================================================== *)

Module Js.

(** What [JSON.parse] can return.  Numbers are kept as integers: the code
    only ever tests a number for truthiness (zero or not). Objects are
    association lists in which the first binding of a key is the one
    a property read sees. *)
Inductive json : Type :=
  | JNull
  | JBool (b : bool)
  | JNum (n : Z)
  | JStr (s : string)
  | JArr (items : list json)
  | JObj (fields : list (string * json)).

(** The value of an expression: a JSON value or [undefined]. *)
Inductive value : Type :=
  | Undefined
  | Val (j : json).

(** Completion of a piece of code: it returns normally or throws.  The
    thrown object itself is never inspected by the program (only its
    [message] is logged), so it is not represented. *)
Inductive completion (A : Type) : Type :=
  | Normal (a : A)
  | Thrown.
Arguments Normal {A} a.
Arguments Thrown {A}.

Definition bind {A B} (c : completion A) (k : A -> completion B) : completion B :=
  match c with
  | Normal a => k a
  | Thrown => Thrown
  end.

Notation "x <- c ;; k" := (bind c (fun x => k))
  (at level 100, c at next level, right associativity).

(** [try { c } catch { h }] *)
Definition try_catch {A} (c : completion A) (h : A) : A :=
  match c with
  | Normal a => a
  | Thrown => h
  end.

Fixpoint assoc (k : string) (fields : list (string * json)) : value :=
  match fields with
  | [] => Undefined
  | (k', v) :: rest => if String.eqb k k' then Val v else assoc k rest
  end.

Definition has_key (k : string) (fields : list (string * json)) : bool :=
  match assoc k fields with
  | Undefined => false
  | Val _ => true
  end.

(** [v.name] for a property [name] that is neither an index nor [length]
    nor inherited from a prototype ([errors], [data], [deployments],
    [edges], [node], [id], [status]).  Reading a property of [null] or
    [undefined] throws a TypeError; primitives and arrays have no such
    property. *)
Definition get (v : value) (name : string) : completion value :=
  match v with
  | Undefined => Thrown
  | Val JNull => Thrown
  | Val (JObj fields) => Normal (assoc name fields)
  | Val _ => Normal Undefined
  end.

(** [v.length] *)
Definition get_length (v : value) : completion value :=
  match v with
  | Undefined => Thrown
  | Val JNull => Thrown
  | Val (JArr items) => Normal (Val (JNum (Z.of_nat (List.length items))))
  | Val (JStr s) => Normal (Val (JNum (Z.of_nat (String.length s))))
  | Val (JObj fields) => Normal (assoc "length" fields)
  | Val _ => Normal Undefined
  end.

(** [v[0]] *)
Definition get_first (v : value) : completion value :=
  match v with
  | Undefined => Thrown
  | Val JNull => Thrown
  | Val (JArr items) =>
      Normal (match items with [] => Undefined | x :: _ => Val x end)
  | Val (JStr s) =>
      Normal (match s with
              | EmptyString => Undefined
              | String a _ => Val (JStr (String a EmptyString))
              end)
  | Val (JObj fields) => Normal (assoc "0" fields)
  | Val _ => Normal Undefined
  end.

(** ToBoolean *)
Definition truthy (v : value) : bool :=
  match v with
  | Undefined => false
  | Val JNull => false
  | Val (JBool b) => b
  | Val (JNum n) => negb (Z.eqb n 0)
  | Val (JStr s) => negb (String.eqb s "")
  | Val (JArr _) => true
  | Val (JObj _) => true
  end.

(** Whether converting a parsed value to a string throws.  For an object
    the conversion goes through its [toString]; an own [toString] field
    coming from JSON is never callable, and the fallback [valueOf] yields
    an object again, so the conversion throws a TypeError.  An array is
    joined, which converts its elements ([null] elements become the empty
    string).  Every other value converts. *)
Fixpoint unprintable (j : json) : bool :=
  match j with
  | JObj fields => has_key "toString" fields
  | JArr items => existsb unprintable items
  | _ => false
  end.

(** Interpolating a value into a template literal converts it to a
    string. *)
Definition interpolate (v : value) : completion unit :=
  match v with
  | Undefined => Normal tt
  | Val j => if unprintable j then Thrown else Normal tt
  end.

End Js.

(* ===================================================================== *)
(** ** Start-up configuration check (lines 8-19 and 190) *)
(* ===================================================================== *)

Module Config.

(** The four entries of [process.env] the module reads at load time; an
    entry that is not set reads as [undefined], here [None]. *)
Record env : Type := {
  PROJECT_ID : option string;
  ENVIRONMENT_ID : option string;
  SERVICE_ID : option string;
  RAILWAY_API_TOKEN : option string
}.

(** [!x] for [x] a string or [undefined]: true exactly when [x] is falsy. *)
Definition falsy (x : option string) : bool :=
  match x with
  | None => true
  | Some s => String.eqb s ""
  end.

Definition PORT : Z := 25565.

Inductive outcome : Type :=
  | Exit (code : Z)        (* process.exit(code), nothing after it runs *)
  | Listening (port : Z).  (* server.listen(port) was reached *)

Definition startup (e : env) : outcome :=
  if falsy (PROJECT_ID e) || falsy (ENVIRONMENT_ID e)
     || falsy (SERVICE_ID e) || falsy (RAILWAY_API_TOKEN e)
  then Exit 1
  else Listening PORT.

(** A value is absent when the variable is not set, present when it is
    set (to any string), and usable when it is set to a non-empty string. *)
Definition absent (x : option string) : Prop := x = None.
Definition present (x : option string) : Prop := exists v, x = Some v.
Definition usable (x : option string) : Prop :=
  exists v, x = Some v /\ v <> "".

End Config.

(* ===================================================================== *)
(** ** Outbound requests and the three wrappers (lines 29-125) *)
(* ===================================================================== *)

Module Http.
Import Js.

(** What one [fetch] followed by [res.json()] can produce.  Between the two
    awaits the wrappers touch no shared state, so a round trip is one
    reply: the request fails ([fetch] rejects), or a response arrives whose
    body either fails to parse ([res.json()] rejects) or parses. *)
Inductive body : Type :=
  | Malformed
  | Parsed (j : json).

Inductive reply : Type :=
  | NetworkError
  | Response (status : Z) (b : body).

(** [res.ok] *)
Definition ok (status : Z) : bool := Z.leb 200 status && Z.ltb status 300.

(** [await res.json()] *)
Definition res_json (b : body) : completion value :=
  match b with
  | Malformed => Thrown
  | Parsed j => Normal (Val j)
  end.

(** Lines 29-55.  Console output is not modelled; reading [data.status] is
    kept because it can throw. *)
Definition isServerRunning (r : reply) : bool :=
  try_catch
    (match r with
     | NetworkError => Thrown
     | Response status b =>
         if negb (ok status) then Normal false
         else
           data <- res_json b ;;
           _ <- get data "status" ;;
           Normal true
     end)
    false.

(** Lines 79-97: the part of [fetchLatestDeployment] after the request was
    sent.  [return null] is [Val JNull]. *)
Definition fetchLatestDeployment (r : reply) : completion value :=
  match r with
  | NetworkError => Thrown
  | Response _ b =>
      data <- res_json b ;;
      errors <- get data "errors" ;;
      if truthy errors then Normal (Val JNull)
      else
        d <- get data "data" ;;
        deployments <- get d "deployments" ;;
        edges <- get deployments "edges" ;;
        len <- get_length edges ;;
        if negb (truthy len) then Normal (Val JNull)
        else
          first <- get_first edges ;;
          get first "node"
  end.

(** Lines 102-106: building the mutation text interpolates the id. *)
Definition restartDeployment_request (deploymentId : value) : completion unit :=
  interpolate deploymentId.

(** Lines 108-124: the part of [restartDeployment] after the request was
    sent. *)
Definition restartDeployment_reply (r : reply) : completion bool :=
  match r with
  | NetworkError => Thrown
  | Response _ b =>
      data <- res_json b ;;
      errors <- get data "errors" ;;
      if truthy errors then Normal false else Normal true
  end.

Definition restartDeployment (deploymentId : value) (r : reply) : completion bool :=
  _ <- restartDeployment_request deploymentId ;;
  restartDeployment_reply r.

End Http.

(* ===================================================================== *)
(** ** The connection handler (lines 23-26 and 128-188) *)
(* ===================================================================== *)

Module Proxy.
Import Js Http.

Definition COOLDOWN_MS : Z := 60000.

(** *** First chunk: lines 131-142 *)

(** The class [\w] of a regular expression without the [u] flag. *)
Definition is_word (a : ascii) : bool :=
  let n := Z.of_nat (nat_of_ascii a) in
  (Z.leb 48 n && Z.leb n 57) || (Z.leb 65 n && Z.leb n 90)
  || Z.eqb n 95 || (Z.leb 97 n && Z.leb n 122).

(** [data.toString("utf8").replace(/[^\w]/g, "")].  The chunk is its bytes.
    Decoding maps a byte below 128 to the same character wherever it
    stands, and whatever the decoder makes of the bytes from 128 up (a
    character beyond ASCII or a replacement character) is not in [\w]; so
    the result is the word bytes of the chunk, in order. *)
Fixpoint username (data : string) : string :=
  match data with
  | EmptyString => EmptyString
  | String a rest =>
      if is_word a then String a (username rest) else username rest
  end.

(** [hay.includes(needle)] *)
Fixpoint includes (needle hay : string) : bool :=
  String.prefix needle hay ||
  match hay with
  | EmptyString => false
  | String _ rest => includes needle rest
  end.

Definition newline : string := String "010"%char EmptyString.

Definition msg_online : string :=
  "§eServer is already online, please join!" +:+ newline.
Definition msg_wait : string :=
  "§eServer is starting... please wait." +:+ newline.
Definition msg_no_deployment : string :=
  "§cError: No deployment found." +:+ newline.
Definition msg_starting : string :=
  "§eServer is starting... please try again in ~30s." +:+ newline.
Definition msg_error : string :=
  "§cError starting server, try again later." +:+ newline.

(** *** Shared state and the tasks in flight *)

(** Where a suspended handler waits: each is the [await] of one wrapper. *)
Inductive pc : Type :=
  | AwaitHealth                           (* line 145 *)
  | AwaitDeployment                       (* line 161 *)
  | AwaitRestart (deploymentId : value).  (* line 171 *)

(** Outbound requests, recorded with the connection that sent them and
    the time they were sent. *)
Inductive call : Type :=
  | HealthCheck
  | LatestDeployment
  | DeploymentRestart (deploymentId : value).

Record request : Type := Request {
  req_conn : nat;
  req_call : call;
  req_time : Z
}.

Definition controller (r : request) : bool :=
  match req_call r with
  | HealthCheck => false
  | _ => true
  end.

(** [restarting] and [lastWake] are the module variables of lines 24-25;
    [now] is the value [Date.now()] returns; [timers] holds the due times
    of the pending [setTimeout] callbacks of line 179; [tasks] maps a
    connection to the await its handler is suspended at; [conns] counts
    the connections that have delivered their first chunk (the next one
    gets this number); [sockets] lists the [socket.end] calls with the
    text written, if any; [requests] lists the requests sent. *)
Record state : Type := State {
  restarting : bool;
  lastWake : Z;
  now : Z;
  timers : list Z;
  tasks : gmap nat pc;
  conns : nat;
  sockets : list (nat * option string);
  requests : list request
}.

Definition init (t0 : Z) : state :=
  {| restarting := false; lastWake := 0; now := t0; timers := [];
     tasks := ∅; conns := 0%nat; sockets := []; requests := [] |}.

Definition set_restarting (b : bool) (s : state) : state :=
  {| restarting := b; lastWake := lastWake s; now := now s;
     timers := timers s; tasks := tasks s; conns := conns s;
     sockets := sockets s; requests := requests s |}.

Definition set_lastWake (t : Z) (s : state) : state :=
  {| restarting := restarting s; lastWake := t; now := now s;
     timers := timers s; tasks := tasks s; conns := conns s;
     sockets := sockets s; requests := requests s |}.

Definition set_now (t : Z) (s : state) : state :=
  {| restarting := restarting s; lastWake := lastWake s; now := t;
     timers := timers s; tasks := tasks s; conns := conns s;
     sockets := sockets s; requests := requests s |}.

Definition set_timers (l : list Z) (s : state) : state :=
  {| restarting := restarting s; lastWake := lastWake s; now := now s;
     timers := l; tasks := tasks s; conns := conns s;
     sockets := sockets s; requests := requests s |}.

Definition set_tasks (m : gmap nat pc) (s : state) : state :=
  {| restarting := restarting s; lastWake := lastWake s; now := now s;
     timers := timers s; tasks := m; conns := conns s;
     sockets := sockets s; requests := requests s |}.

Definition set_conns (n : nat) (s : state) : state :=
  {| restarting := restarting s; lastWake := lastWake s; now := now s;
     timers := timers s; tasks := tasks s; conns := n;
     sockets := sockets s; requests := requests s |}.

Definition set_sockets (l : list (nat * option string)) (s : state) : state :=
  {| restarting := restarting s; lastWake := lastWake s; now := now s;
     timers := timers s; tasks := tasks s; conns := conns s;
     sockets := l; requests := requests s |}.

Definition set_requests (l : list request) (s : state) : state :=
  {| restarting := restarting s; lastWake := lastWake s; now := now s;
     timers := timers s; tasks := tasks s; conns := conns s;
     sockets := sockets s; requests := l |}.

(** [socket.end(text)] / [socket.end()] *)
Definition socket_end (c : nat) (text : option string) (s : state) : state :=
  set_sockets (sockets s ++ [(c, text)]) s.

(** Sending a request records it at the current time. *)
Definition send (c : nat) (what : call) (s : state) : state :=
  set_requests (requests s ++ [Request c what (now s)]) s.

(** The handler suspends at an await / returns. *)
Definition suspend (c : nat) (at_pc : pc) (s : state) : state :=
  set_tasks (<[c := at_pc]> (tasks s)) s.

Definition finish (c : nat) (s : state) : state :=
  set_tasks (delete c (tasks s)) s.

(** [setTimeout(() => { restarting = false; }, COOLDOWN_MS)] *)
Definition setTimeout_reset (s : state) : state :=
  set_timers (timers s ++ [now s + COOLDOWN_MS]) s.

(** *** The handler, cut at its awaits *)

(** Lines 183-186: the [catch] of the handler. *)
Definition on_catch (c : nat) (s : state) : state :=
  finish c (socket_end c None s).

(** Lines 131-145: from the [data] event to the first await. *)
Definition on_data (data : string) (s : state) : state :=
  let c := conns s in
  let s := set_conns (S c) s in
  let username := username data in
  if String.eqb username "" then socket_end c None s
  else if includes "MCPingHost" username then socket_end c None s
  else suspend c AwaitHealth (send c HealthCheck s).

(** Lines 145-161: from the result of [isServerRunning] to the next await
    or the return.  The two reads of [Date.now()] (lines 152 and 159)
    belong to one synchronous run and see the same clock value. *)
Definition after_health (c : nat) (running : bool) (s : state) : state :=
  if running then finish c (socket_end c (Some msg_online) s)
  else if restarting s || Z.ltb (now s - lastWake s) COOLDOWN_MS
  then finish c (socket_end c (Some msg_wait) s)
  else
    let s := set_restarting true s in
    let s := set_lastWake (now s) s in
    suspend c AwaitDeployment (send c LatestDeployment s).

(** Lines 161-171: from the completion of [fetchLatestDeployment] to the
    request of [restartDeployment] or the return. *)
Definition after_deployment (c : nat) (r : completion value) (s : state) : state :=
  match r with
  | Thrown => on_catch c s
  | Normal deployment =>
      if negb (truthy deployment)
      then finish c (set_restarting false (socket_end c (Some msg_no_deployment) s))
      else
        match (id <- get deployment "id" ;;
               _ <- restartDeployment_request id ;;
               Normal id) with
        | Thrown => on_catch c s
        | Normal id => suspend c (AwaitRestart id) (send c (DeploymentRestart id) s)
        end
  end.

(** Lines 171-182: from the completion of [restartDeployment] to the end. *)
Definition after_restart (c : nat) (r : completion bool) (s : state) : state :=
  match r with
  | Thrown => on_catch c s
  | Normal ok =>
      let s := socket_end c (Some (if ok then msg_starting else msg_error)) s in
      finish c (setTimeout_reset s)
  end.

(** *** Events of the event loop *)

Inductive event : Type :=
  | Tick (d : Z)                    (* the clock advances by [d] >= 0 *)
  | Data (chunk : string)           (* a new connection's first chunk *)
  | Reply (c : nat) (r : reply)     (* the awaited round trip of [c] ends *)
  | Fire (i : nat).                 (* the [i]-th pending timer fires *)

(** One turn of the event loop; [None] when the event cannot happen in
    this state. A timer fires no earlier than its due time. *)
Definition step (s : state) (e : event) : option state :=
  match e with
  | Tick d => if Z.leb 0 d then Some (set_now (now s + d) s) else None
  | Data chunk => Some (on_data chunk s)
  | Reply c r =>
      match tasks s !! c with
      | None => None
      | Some AwaitHealth => Some (after_health c (isServerRunning r) s)
      | Some AwaitDeployment => Some (after_deployment c (fetchLatestDeployment r) s)
      | Some (AwaitRestart _) => Some (after_restart c (restartDeployment_reply r) s)
      end
  | Fire i =>
      match timers s !! i with
      | None => None
      | Some due =>
          if Z.leb due (now s)
          then Some (set_restarting false (set_timers (delete i (timers s)) s))
          else None
      end
  end.

Fixpoint run (s : state) (evs : list event) : option state :=
  match evs with
  | [] => Some s
  | e :: rest =>
      match step s e with
      | None => None
      | Some s' => run s' rest
      end
  end.

(** States the proxy can be in: started at some clock value [t0 >= 0]
    and driven by any events. *)
Definition reachable (s : state) : Prop :=
  exists t0 evs, 0 <= t0 /\ run (init t0) evs = Some s.

(** A first chunk that is neither empty after stripping nor a status
    probe. *)
Definition non_probe (data : string) : Prop :=
  username data <> "" /\ includes "MCPingHost" (username data) = false.

(** The part of the state the wake logic owns: the lock, the time stamp
    and the pending releases. *)
Definition wake_state (s : state) : bool * Z * list Z :=
  (restarting s, lastWake s, timers s).

Definition controller_requests (s : state) : list request :=
  List.filter controller (requests s).

(** A handler between lines 158 and 181 holds the lock. *)
Definition holds_lock (p : pc) : bool :=
  match p with
  | AwaitHealth => false
  | AwaitDeployment | AwaitRestart _ => true
  end.

(** A real connection attempt served in a state [s]: it arrives [d1]
    after [s], its health round trip takes [d2], nothing else happens. *)
Definition second_connection (data : string) (d1 d2 : Z) (r : reply)
    (s : state) : list event :=
  [Tick d1; Data data; Tick d2; Reply (conns s) r].

(** The connection an event is about, if any. *)
Definition subject (s : state) (e : event) : option nat :=
  match e with
  | Data _ => Some (conns s)
  | Reply c _ => Some c
  | _ => None
  end.

(** *** Sample replies used in the examples *)

Definition reply_down : reply := NetworkError.

Definition reply_active : reply :=
  Response 200 (Parsed (JObj [("status", JStr "active")])).

Definition reply_no_deployment : reply :=
  Response 200
    (Parsed (JObj [("data", JObj [("deployments", JObj [("edges", JArr [])])])])).

Definition reply_deployment_d1 : reply :=
  Response 200
    (Parsed (JObj [("data", JObj [("deployments", JObj [("edges",
       JArr [JObj [("node", JObj [("id", JStr "d1");
                                  ("staticUrl", JStr "mc.example")])]])])])])).

Definition reply_restart_ok : reply :=
  Response 200 (Parsed (JObj [("data", JObj [("deploymentRestart", JBool true)])])).

Definition reply_restart_errors : reply :=
  Response 200
    (Parsed (JObj [("errors", JArr [JObj [("message", JStr "Not Authorized")]])])).

Definition reply_unauthorized : reply :=
  Response 401 (Parsed (JObj [("message", JStr "Not Authorized")])).

Definition reply_bad_gateway : reply := Response 502 Malformed.

(** Epoch milliseconds at which the examples start. *)
Definition t_start : Z := 1700000000000.

(** *** Invariants of the reachable states *)

(** The lock is held and nothing is left that could release it. *)
Definition stuck (s : state) : Prop :=
  restarting s = true /\ timers s = [] /\
  forall c p, tasks s !! c = Some p -> holds_lock p = false.

(** What the cooldown argument needs of a state:
    - the time stamp is in the past;
    - so is every controller request;
    - while the lock is free, every controller request is no later than
      [lastWake] or at least [COOLDOWN_MS] old;
    - a handler holding the lock is the only one, no release is pending,
      the other connections' controller requests are at least
      [COOLDOWN_MS] older than [lastWake], and until it sends its restart
      request none is later than [lastWake];
    - a pending release is the only one, the lock is held but by no
      handler, and the release is due at least [COOLDOWN_MS] after every
      controller request;
    - controller requests of different connections are at least
      [COOLDOWN_MS] apart. *)
Record inv (s : state) : Prop := Inv {
  inv_clock : 0 <= lastWake s <= now s;
  inv_past : forall q, q ∈ requests s -> controller q = true ->
    req_time q <= now s;
  inv_free : restarting s = false ->
    forall q, q ∈ requests s -> controller q = true ->
    req_time q <= lastWake s \/ req_time q + COOLDOWN_MS <= now s;
  inv_holder : forall c p, tasks s !! c = Some p -> holds_lock p = true ->
    restarting s = true /\ timers s = [] /\
    (forall c' p', tasks s !! c' = Some p' -> holds_lock p' = true -> c' = c) /\
    (forall q, q ∈ requests s -> controller q = true -> req_conn q <> c ->
       req_time q + COOLDOWN_MS <= lastWake s) /\
    (p = AwaitDeployment ->
       forall q, q ∈ requests s -> controller q = true ->
       req_time q <= lastWake s);
  inv_timer : forall due, due ∈ timers s ->
    restarting s = true /\ timers s = [due] /\
    (forall c p, tasks s !! c = Some p -> holds_lock p = false) /\
    (forall q, q ∈ requests s -> controller q = true ->
       req_time q + COOLDOWN_MS <= due);
  inv_apart : forall q1 q2, q1 ∈ requests s -> q2 ∈ requests s ->
    controller q1 = true -> controller q2 = true ->
    req_conn q1 <> req_conn q2 ->
    COOLDOWN_MS <= Z.abs (req_time q1 - req_time q2)
}.

(** Connection numbers are handed out once: every suspended handler and
    every request belongs to a connection already counted, and a handler
    still waiting for the health answer has sent nothing to the
    controller. *)
Definition ids_ok (s : state) : Prop :=
  (forall c p, tasks s !! c = Some p -> (c < conns s)%nat) /\
  (forall q, q ∈ requests s -> (req_conn q < conns s)%nat) /\
  (forall c q, tasks s !! c = Some AwaitHealth -> q ∈ requests s ->
     req_conn q = c -> controller q = false).

(** While a handler holds the lock, [lastWake] is the time at which it
    sent its latest-deployment request (lines 159-161). *)
Definition stamped (s : state) : Prop :=
  forall c p, tasks s !! c = Some p -> holds_lock p = true ->
    Request c LatestDeployment (lastWake s) ∈ requests s.

(** The handler of connection [c] has run to its end. *)
Definition finished (c : nat) (s : state) : Prop :=
  (c < conns s)%nat /\ tasks s !! c = None.

(** *** Vocabulary of the further properties *)

(** The five texts the handler can write; [None] is a close without
    text. *)
Definition known_texts : list (option string) :=
  [None; Some msg_online; Some msg_wait; Some msg_no_deployment;
   Some msg_starting; Some msg_error].

(** The connections whose socket was ended, in order. *)
Definition closed (s : state) : list nat := List.map fst (sockets s).

(** The calls a connection has sent, in order. *)
Definition calls_of (c : nat) (s : state) : list call :=
  List.map req_call
    (List.filter (fun q => Nat.eqb (req_conn q) c) (requests s)).



(** The body the control plane sends for the deployments query: one edge
    per deployment, each wrapping its node. *)
Definition deployments_body (nodes : list json) : json :=
  JObj [("data", JObj [("deployments", JObj [("edges",
          JArr (List.map (fun n => JObj [("node", n)]) nodes))])])].

(** The same with an [errors] member in front. *)
Definition errors_body (errors : json) (nodes : list json) : json :=
  JObj [("errors", errors);
        ("data", JObj [("deployments", JObj [("edges",
          JArr (List.map (fun n => JObj [("node", n)]) nodes))])])].

(** What a connection may have sent by the time its handler is at a given
    point. *)
Definition calls_at (p : pc) : list call :=
  match p with
  | AwaitHealth => [HealthCheck]
  | AwaitDeployment => [HealthCheck; LatestDeployment]
  | AwaitRestart id => [HealthCheck; LatestDeployment; DeploymentRestart id]
  end.

End Proxy.

(** Unfolds the state updates down to record fields. *)
Ltac state_simpl :=
  unfold Proxy.on_catch, Proxy.finish, Proxy.suspend, Proxy.send,
    Proxy.socket_end, Proxy.setTimeout_reset, Proxy.set_restarting,
    Proxy.set_lastWake, Proxy.set_now, Proxy.set_timers, Proxy.set_tasks,
    Proxy.set_conns, Proxy.set_sockets, Proxy.set_requests in *;
  cbn in *.

(* ===================================================================== *)
(** ** Start-up *)
(* ===================================================================== *)

Section Startup.
Import Config.

Lemma falsy_spec x : falsy x = true <-> absent x \/ x = Some "".
Proof.
  unfold falsy, absent. destruct x as [v|]; split; intros H; auto.
  - apply String.eqb_eq in H. subst. now right.
  - destruct H as [H|H]; [discriminate|]. inversion H. reflexivity.
Qed.

Lemma falsy_usable x : falsy x = false <-> usable x.
Proof.
  unfold falsy, usable. destruct x as [v|]; split.
  - intros H. exists v. split; [reflexivity|]. now apply String.eqb_neq.
  - intros (w & Hw & Hne). inversion Hw; subst. now apply String.eqb_neq.
  - discriminate.
  - intros (w & Hw & _). discriminate.
Qed.

(** C10, the claim as stated fails: with all four values present, one of
    them the empty string, the process exits with status 1. *)
Lemma C10_present_but_empty_exits :
  let e := {| PROJECT_ID := Some ""; ENVIRONMENT_ID := Some "env";
              SERVICE_ID := Some "svc"; RAILWAY_API_TOKEN := Some "tok" |} in
  present (PROJECT_ID e) /\ present (ENVIRONMENT_ID e) /\
  present (SERVICE_ID e) /\ present (RAILWAY_API_TOKEN e) /\
  startup e = Exit 1 /\ startup e <> Listening PORT.
Proof.
  cbn. repeat split; try (eexists; reflexivity). discriminate.
Qed.

(** C10 (amended): if any of the four required values is absent or the
    empty string, start-up ends in [process.exit(1)] (a non-zero status)
    and the listener is never started; if all four are set to non-empty
    strings, the check passes and [server.listen(PORT)] is reached. *)
Theorem C10_startup_check (e : env) :
  ((absent (PROJECT_ID e) \/ PROJECT_ID e = Some "") \/
   (absent (ENVIRONMENT_ID e) \/ ENVIRONMENT_ID e = Some "") \/
   (absent (SERVICE_ID e) \/ SERVICE_ID e = Some "") \/
   (absent (RAILWAY_API_TOKEN e) \/ RAILWAY_API_TOKEN e = Some "") ->
   startup e = Exit 1 /\ 1 <> 0) /\
  (usable (PROJECT_ID e) /\ usable (ENVIRONMENT_ID e) /\
   usable (SERVICE_ID e) /\ usable (RAILWAY_API_TOKEN e) ->
   startup e = Listening PORT).
Proof.
  unfold startup. split.
  - intros H. split; [|lia].
    repeat rewrite <- falsy_spec in H.
    destruct H as [H|[H|[H|H]]]; rewrite H;
      repeat rewrite orb_true_r; reflexivity.
  - intros (H1 & H2 & H3 & H4).
    apply falsy_usable in H1, H2, H3, H4.
    now rewrite H1, H2, H3, H4.
Qed.

Lemma C10_startup_check_witness :
  Config.startup {| PROJECT_ID := None; ENVIRONMENT_ID := Some "env";
                    SERVICE_ID := Some "svc"; RAILWAY_API_TOKEN := Some "tok" |}
    = Exit 1 /\
  Config.startup {| PROJECT_ID := Some "proj"; ENVIRONMENT_ID := Some "env";
                    SERVICE_ID := Some "svc"; RAILWAY_API_TOKEN := Some "tok" |}
    = Listening PORT.
Proof.
  split.
  - apply (proj1 (C10_startup_check _)). left. left. reflexivity.
  - apply (proj2 (C10_startup_check _)). cbn.
    repeat split; eexists; (split; [reflexivity | discriminate]).
Defined.

End Startup.

(* ===================================================================== *)
(** ** The health wrapper *)
(* ===================================================================== *)

Section Health.
Import Js Http.

(** C9, the claim as stated fails: a 200 response whose body is the JSON
    text [null] parses, then reading [data.status] throws inside the [try]
    and the wrapper answers [false]. *)
Lemma C9_null_body_not_running :
  ok 200 = true /\ res_json (Parsed JNull) = Normal (Val JNull) /\
  isServerRunning (Response 200 (Parsed JNull)) = false.
Proof. repeat split. Qed.

(** C9 (amended): [isServerRunning] returns false on a network error, on
    every non-success status and on every body that does not parse; when
    the status is a success and the body parses to a JSON value other than
    [null], it returns true whatever that value is (so whatever its
    [status] field holds); for the body [null] it returns false.  Apart
    from the [null] body, only the HTTP status decides. *)
Theorem C9_isServerRunning :
  isServerRunning NetworkError = false /\
  (forall status b, ok status = false ->
     isServerRunning (Response status b) = false) /\
  (forall status, isServerRunning (Response status Malformed) = false) /\
  (forall status j, ok status = true -> j <> JNull ->
     isServerRunning (Response status (Parsed j)) = true) /\
  (forall status, isServerRunning (Response status (Parsed JNull)) = false).
Proof.
  repeat split.
  - intros status b H. unfold isServerRunning. now rewrite H.
  - intros status. unfold isServerRunning. now destruct (ok status).
  - intros status j H Hj. unfold isServerRunning. rewrite H. cbn.
    destruct j; try reflexivity. congruence.
  - intros status. unfold isServerRunning. now destruct (ok status).
Qed.

Lemma C9_isServerRunning_witness :
  isServerRunning (Response 503 (Parsed (JObj [("status", JStr "active")])))
    = false /\
  isServerRunning (Response 200 (Parsed (JObj [("status", JStr "stopped")])))
    = true.
Proof.
  split.
  - apply (proj1 (proj2 C9_isServerRunning)). reflexivity.
  - apply (proj1 (proj2 (proj2 (proj2 C9_isServerRunning))));
      [reflexivity | discriminate].
Defined.

End Health.

(* ===================================================================== *)
(** ** One connection: the listener and the three answers of the handler *)
(* ===================================================================== *)

Section Handler.
Import Js Http Proxy.

Lemma on_data_non_probe s data :
  non_probe data ->
  on_data data s =
  suspend (conns s) AwaitHealth
    (send (conns s) HealthCheck (set_conns (S (conns s)) s)).
Proof.
  intros [Hne Hping]. unfold on_data.
  apply String.eqb_neq in Hne. now rewrite Hne, Hping.
Qed.

(** What the listener does with a real connection attempt: one health
    request, the handler suspended on it, the wake state untouched. *)
Lemma data_non_probe s data :
  non_probe data ->
  step s (Data data) = Some (on_data data s) /\
  tasks (on_data data s) !! conns s = Some AwaitHealth /\
  wake_state (on_data data s) = wake_state s /\
  now (on_data data s) = now s /\
  sockets (on_data data s) = sockets s /\
  requests (on_data data s)
    = requests s ++ [Request (conns s) HealthCheck (now s)] /\
  controller_requests (on_data data s) = controller_requests s.
Proof.
  intros H. split; [reflexivity|].
  rewrite (on_data_non_probe _ _ H).
  repeat split; try reflexivity.
  - cbn. apply lookup_insert_eq.
  - unfold controller_requests. cbn. rewrite List.filter_app. cbn.
    apply app_nil_r.
Qed.

(** C8: a first chunk whose token is empty, or whose token contains the
    status-probe marker, closes the connection with no bytes written; no
    handler is left suspended, no request (health or controller) is sent
    and the wake state is neither changed nor consulted: the resulting
    state is the old one with the socket closed and the connection
    counted, whatever the old state. *)
Theorem C8_probe_ignored (s : state) (data : string) :
  username data = "" \/ includes "MCPingHost" (username data) = true ->
  exists s',
    step s (Data data) = Some s' /\
    s' = socket_end (conns s) None (set_conns (S (conns s)) s) /\
    sockets s' = sockets s ++ [(conns s, None)] /\
    tasks s' = tasks s /\
    requests s' = requests s /\
    wake_state s' = wake_state s.
Proof.
  intros H. exists (on_data data s). split; [reflexivity|].
  assert (E : on_data data s
              = socket_end (conns s) None (set_conns (S (conns s)) s)).
  { unfold on_data. destruct H as [H|H].
    - rewrite H. reflexivity.
    - rewrite H. now destruct (String.eqb (username data) ""). }
  rewrite E. repeat split.
Qed.

Lemma C8_probe_ignored_witness :
  exists s',
    step (init 1700000000000) (Data ("MC|PingHost" +:+ newline)) = Some s' /\
    s' = socket_end 0 None (set_conns 1 (init 1700000000000)) /\
    sockets s' = [(0%nat, None)] /\
    tasks s' = ∅ /\
    requests s' = [] /\
    wake_state s' = (false, 0, []).
Proof.
  apply (C8_probe_ignored (init 1700000000000) ("MC|PingHost" +:+ newline)).
  right. reflexivity.
Defined.

(** C5: for a real connection attempt the listener sends the health
    request without touching the wake state; and whatever the state is
    when the health wrapper answers [true] (any lock value, any time
    stamp), the handler writes the already-online message, ends, leaves
    lock, time stamp and pending releases as they were and sends no
    request at all. *)
Theorem C5_running_passthrough (s : state) (data : string) (r : reply) :
  non_probe data ->
  isServerRunning r = true ->
  let c := conns s in
  (step s (Data data) = Some (on_data data s) /\
   tasks (on_data data s) !! c = Some AwaitHealth /\
   wake_state (on_data data s) = wake_state s /\
   controller_requests (on_data data s) = controller_requests s) /\
  forall s2, tasks s2 !! c = Some AwaitHealth ->
    exists s3,
      step s2 (Reply c r) = Some s3 /\
      sockets s3 = sockets s2 ++ [(c, Some msg_online)] /\
      wake_state s3 = wake_state s2 /\
      requests s3 = requests s2 /\
      tasks s3 = delete c (tasks s2).
Proof.
  intros Hd Hr c. split.
  - destruct (data_non_probe s data Hd) as (H1 & H2 & H3 & _ & _ & _ & H4).
    auto.
  - intros s2 Ht. eexists. split.
    + cbn. rewrite Ht, Hr. reflexivity.
    + repeat split.
Qed.

Lemma C5_running_passthrough_witness :
  let s := set_lastWake 1700000000000 (set_restarting true (init 1700000000500)) in
  let r := Response 200 (Parsed (JObj [("status", JStr "active")])) in
  exists s3,
    step (on_data "steve" s) (Reply 0 r) = Some s3 /\
    sockets s3 = [(0%nat, Some msg_online)] /\
    wake_state s3 = (true, 1700000000000, []) /\
    requests s3 = [Request 0 HealthCheck 1700000000500] /\
    tasks s3 = ∅.
Proof.
  intros s r.
  assert (Hd : non_probe "steve") by (split; [discriminate | reflexivity]).
  destruct (proj2 (C5_running_passthrough s "steve" r Hd eq_refl)
              (on_data "steve" s) eq_refl) as (s3 & H1 & H2 & H3 & H4 & H5).
  exists s3. repeat split; assumption.
Defined.

(** C6: whatever the state is when the health wrapper answers [false], if
    the lock is held or less than [COOLDOWN_MS] have passed since
    [lastWake], the handler writes the starting-please-wait message, ends,
    sends no request and leaves lock, time stamp and pending releases as
    they were. *)
Theorem C6_cooldown_short_circuit (s : state) (c : nat) (r : reply) :
  tasks s !! c = Some AwaitHealth ->
  isServerRunning r = false ->
  restarting s = true \/ now s - lastWake s < COOLDOWN_MS ->
  exists s',
    step s (Reply c r) = Some s' /\
    sockets s' = sockets s ++ [(c, Some msg_wait)] /\
    wake_state s' = wake_state s /\
    requests s' = requests s /\
    tasks s' = delete c (tasks s).
Proof.
  intros Ht Hr Hb.
  assert (E : restarting s || Z.ltb (now s - lastWake s) COOLDOWN_MS = true).
  { destruct Hb as [Hb|Hb].
    - now rewrite Hb.
    - apply Z.ltb_lt in Hb. rewrite Hb. apply orb_true_r. }
  eexists. split.
  - cbn. rewrite Ht, Hr. unfold after_health. rewrite E. reflexivity.
  - repeat split.
Qed.

Lemma C6_cooldown_short_circuit_witness :
  let s := on_data "steve" (set_lastWake 1700000000000 (init 1700000059999)) in
  exists s',
    step s (Reply 0 NetworkError) = Some s' /\
    sockets s' = sockets s ++ [(0%nat, Some msg_wait)] /\
    wake_state s' = wake_state s /\
    requests s' = requests s /\
    tasks s' = delete 0%nat (tasks s).
Proof.
  intros s.
  apply (C6_cooldown_short_circuit s 0 NetworkError).
  - reflexivity.
  - reflexivity.
  - right. reflexivity.
Defined.

End Handler.

(* ===================================================================== *)
(** ** The handler on sample runs *)
(* ===================================================================== *)

Section Scenarios.
Import Js Http Proxy.

Example token_of_handshake : username ("steve!" +:+ newline) = "steve".
Proof. reflexivity. Qed.

Example token_of_ping :
  includes "MCPingHost" (username "MC|PingHost") = true.
Proof. reflexivity. Qed.

Example latest_deployment_found :
  fetchLatestDeployment reply_deployment_d1
  = Normal (Val (JObj [("id", JStr "d1"); ("staticUrl", JStr "mc.example")])).
Proof. reflexivity. Qed.

Example latest_deployment_none :
  fetchLatestDeployment reply_no_deployment = Normal (Val JNull).
Proof. reflexivity. Qed.

Example restart_errors_payload :
  restartDeployment (Val (JStr "d1")) reply_restart_errors = Normal false.
Proof. reflexivity. Qed.

(** Server down, fresh state, a deployment is found and the restart
    succeeds: the client is told to retry, the lock is held right after
    and free once the release has fired, [COOLDOWN_MS] later. *)
Example scenario_wake :
  let wake := [Data "steve"; Reply 0 reply_down;
               Reply 0 reply_deployment_d1; Reply 0 reply_restart_ok] in
  option_map sockets (run (init t_start) wake)
    = Some [(0%nat, Some msg_starting)] /\
  option_map wake_state (run (init t_start) wake)
    = Some (true, t_start, [t_start + COOLDOWN_MS]) /\
  run (init t_start) (wake ++ [Tick 59999; Fire 0]) = None /\
  option_map wake_state (run (init t_start) (wake ++ [Tick 60000; Fire 0]))
    = Some (false, t_start, []).
Proof. repeat split; vm_compute; reflexivity. Qed.

(** The same with an error payload from the restart. *)
Example scenario_restart_refused :
  let wake := [Data "steve"; Reply 0 reply_down;
               Reply 0 reply_deployment_d1; Reply 0 reply_restart_errors] in
  option_map sockets (run (init t_start) wake)
    = Some [(0%nat, Some msg_error)] /\
  option_map wake_state (run (init t_start) wake)
    = Some (true, t_start, [t_start + COOLDOWN_MS]).
Proof. repeat split; vm_compute; reflexivity. Qed.

(** Server up: the client is told so, whatever the wake state. *)
Example scenario_online :
  option_map sockets (run (init t_start) [Data "steve"; Reply 0 reply_active])
    = Some [(0%nat, Some msg_online)] /\
  option_map requests (run (init t_start) [Data "steve"; Reply 0 reply_active])
    = Some [Request 0 HealthCheck t_start].
Proof. repeat split; vm_compute; reflexivity. Qed.

End Scenarios.

(* ===================================================================== *)
(** ** Invariants of the event loop *)
(* ===================================================================== *)

Section Invariants.
Import Js Http Proxy.

Lemma inv_init t0 : 0 <= t0 -> inv (init t0).
Proof.
  intros H. constructor; cbn; try (intros; lia).
  - intros q Hq. now apply elem_of_nil in Hq.
  - intros _ q Hq. now apply elem_of_nil in Hq.
  - intros c p Hc. now rewrite lookup_empty in Hc.
  - intros due Hd. now apply elem_of_nil in Hd.
  - intros q1 q2 Hq. now apply elem_of_nil in Hq.
Qed.

(** Steps that leave lock, time stamp, clock and timers alone, add no
    controller request and no lock holder. *)
Lemma inv_frame s s' :
  restarting s' = restarting s -> lastWake s' = lastWake s ->
  now s' = now s -> timers s' = timers s ->
  (forall q, q ∈ requests s' -> controller q = true -> q ∈ requests s) ->
  (forall c p, tasks s' !! c = Some p -> holds_lock p = true ->
     tasks s !! c = Some p) ->
  inv s -> inv s'.
Proof.
  intros Hr Hl Hn Ht Hq Hp [Hclock Hpast Hfree Hholder Htimer Hapart].
  constructor; rewrite ?Hr, ?Hl, ?Hn, ?Ht.
  - assumption.
  - intros q Hin Hc. eauto.
  - intros Hf q Hin Hc. eauto.
  - intros c p Hc Hh.
    destruct (Hholder c p (Hp _ _ Hc Hh) Hh) as (H1 & H2 & H3 & H4 & H5).
    repeat split; eauto.
  - intros due Hd. destruct (Htimer due Hd) as (H1 & H2 & H3 & H4).
    repeat split; eauto.
    intros c p Hc. destruct (holds_lock p) eqn:Hh; [|reflexivity].
    rewrite <- (H3 c p (Hp _ _ Hc Hh)). symmetry. exact Hh.
  - intros q1 q2 H1 H2 C1 C2. eauto.
Qed.

Lemma inv_tick s d : 0 <= d -> inv s -> inv (set_now (now s + d) s).
Proof.
  intros Hd [Hclock Hpast Hfree Hholder Htimer Hapart].
  constructor; cbn; eauto.
  - lia.
  - intros q Hq Hc. specialize (Hpast q Hq Hc). lia.
  - intros Hf q Hq Hc. destruct (Hfree Hf q Hq Hc); [left|right]; lia.
Qed.

Lemma inv_on_data data s : inv s -> inv (on_data data s).
Proof.
  intros H. unfold on_data.
  destruct (String.eqb _ _); [now apply (inv_frame s)|].
  destruct (includes _ _); [now apply (inv_frame s)|].
  apply (inv_frame s); try reflexivity; state_simpl.
  - intros q Hq Hc. apply elem_of_app in Hq as [Hq|Hq]; [assumption|].
    apply list_elem_of_singleton in Hq. subst q. discriminate.
  - intros c p Hc Hh.
    apply lookup_insert_Some in Hc as [[_ <-]|[_ Hc]]; [discriminate|assumption].
  - assumption.
Qed.

Lemma inv_finish c text s : inv s -> inv (finish c (socket_end c text s)).
Proof.
  intros H. apply (inv_frame s); try reflexivity; state_simpl; auto.
  intros c' p Hc _. now apply lookup_delete_Some in Hc as [_ Hc].
Qed.

(** While the lock is free nobody holds it and no release is pending. *)
Lemma free_no_holder s :
  inv s -> restarting s = false ->
  timers s = [] /\ forall c p, tasks s !! c = Some p -> holds_lock p = false.
Proof.
  intros [Hclock Hpast Hfree Hholder Htimer Hapart] Hf. split.
  - destruct (timers s) as [|due l] eqn:E; [reflexivity|].
    destruct (Htimer due) as [Hr _]; [apply elem_of_cons; now left|].
    congruence.
  - intros c p Hc. destruct (holds_lock p) eqn:Hh; [|reflexivity].
    destruct (Hholder c p Hc Hh) as [Hr _]. congruence.
Qed.

(** Lines 158-161: the wake starts. *)
Lemma inv_wake_start c s :
  inv s -> restarting s = false -> COOLDOWN_MS <= now s - lastWake s ->
  inv (suspend c AwaitDeployment
         (send c LatestDeployment
            (set_lastWake (now s) (set_restarting true s)))).
Proof.
  intros Hinv Hf Hcd. destruct (free_no_holder s Hinv Hf) as [Ht Hnone].
  destruct Hinv as [Hclock Hpast Hfree Hholder Htimer Hapart].
  assert (Hold : forall q, q ∈ requests s -> controller q = true ->
                   req_time q + COOLDOWN_MS <= now s).
  { intros q Hq Hc. destruct (Hfree Hf q Hq Hc); lia. }
  assert (Hcd0 : 0 <= COOLDOWN_MS) by (unfold COOLDOWN_MS; lia).
  constructor; state_simpl.
  - lia.
  - intros q Hq Hc. apply elem_of_app in Hq as [Hq|Hq].
    + specialize (Hold q Hq Hc). lia.
    + apply list_elem_of_singleton in Hq. subst q. cbn. lia.
  - discriminate.
  - intros c0 p0 Hc0 Hh.
    assert (c0 = c /\ p0 = AwaitDeployment) as [-> ->].
    { apply lookup_insert_Some in Hc0 as [[-> <-]|[_ Hc0]]; [auto|].
      rewrite (Hnone _ _ Hc0) in Hh. discriminate. }
    split; [reflexivity|]. split; [assumption|]. split; [|split].
    + intros c' p' Hc' Hh'.
      apply lookup_insert_Some in Hc' as [[-> _]|[_ Hc']]; [reflexivity|].
      rewrite (Hnone _ _ Hc') in Hh'. discriminate.
    + intros q Hq Hc Hne. apply elem_of_app in Hq as [Hq|Hq]; [auto|].
      apply list_elem_of_singleton in Hq. subst q. now cbn in Hne.
    + intros _ q Hq Hc. apply elem_of_app in Hq as [Hq|Hq].
      * specialize (Hold q Hq Hc). lia.
      * apply list_elem_of_singleton in Hq. subst q. cbn. lia.
  - intros due Hd. rewrite Ht in Hd. now apply elem_of_nil in Hd.
  - intros q1 q2 H1 H2 C1 C2 Hne.
    apply elem_of_app in H1 as [H1|H1]; apply elem_of_app in H2 as [H2|H2].
    + auto.
    + apply list_elem_of_singleton in H2. subst q2. cbn.
      specialize (Hold q1 H1 C1). lia.
    + apply list_elem_of_singleton in H1. subst q1. cbn.
      specialize (Hold q2 H2 C2). lia.
    + apply list_elem_of_singleton in H1, H2. subst. now cbn in Hne.
Qed.

Lemma inv_after_health c running s :
  inv s -> inv (after_health c running s).
Proof.
  intros H. unfold after_health.
  destruct running; [now apply inv_finish|].
  destruct (restarting s) eqn:Hr; [now apply inv_finish|]. cbn.
  destruct (Z.ltb _ _) eqn:E; [now apply inv_finish|].
  apply Z.ltb_ge in E. now apply inv_wake_start.
Qed.

(** Lines 183-186 reached by the lock holder: the lock stays held. *)
Lemma inv_on_catch c p s :
  tasks s !! c = Some p -> holds_lock p = true -> inv s -> inv (on_catch c s).
Proof.
  intros Hc Hh Hinv.
  pose proof Hinv as [Hclock Hpast Hfree Hholder Htimer Hapart].
  destruct (Hholder c p Hc Hh) as (Hr & Ht & Huniq & _).
  constructor; state_simpl.
  - assumption.
  - assumption.
  - intros Hf. congruence.
  - intros c0 p0 Hc0 Hh0. apply lookup_delete_Some in Hc0 as [Hne Hc0].
    destruct Hne. symmetry. eauto.
  - intros due Hd. rewrite Ht in Hd. now apply elem_of_nil in Hd.
  - assumption.
Qed.

Lemma inv_after_deployment c r s :
  tasks s !! c = Some AwaitDeployment -> inv s -> inv (after_deployment c r s).
Proof.
  intros Hc Hinv.
  pose proof (inv_on_catch c _ s Hc eq_refl Hinv) as Hcatch.
  unfold after_deployment. destruct r as [deployment|]; [|assumption].
  pose proof Hinv as [Hclock Hpast Hfree Hholder Htimer Hapart].
  destruct (Hholder c _ Hc eq_refl) as (Hr & Ht & Huniq & Hothers & Hmine).
  specialize (Hmine eq_refl).
  destruct (truthy deployment); cbn.
  - destruct (id <- get deployment "id";; _ <- restartDeployment_request id;; Normal id)
      as [id|]; [|assumption].
    constructor; state_simpl.
    + assumption.
    + intros q Hq C. apply elem_of_app in Hq as [Hq|Hq]; [auto|].
      apply list_elem_of_singleton in Hq. subst q. cbn. lia.
    + intros Hf. congruence.
    + intros c0 p0 Hc0 Hh0.
      assert (c0 = c) as ->.
      { apply lookup_insert_Some in Hc0 as [[-> _]|[_ Hc0]]; eauto. }
      rewrite lookup_insert_eq in Hc0. injection Hc0 as <-.
      split; [assumption|]. split; [assumption|]. split; [|split].
      * intros c' p' Hc' Hh'.
        apply lookup_insert_Some in Hc' as [[-> _]|[_ Hc']]; eauto.
      * intros q Hq C Hne. apply elem_of_app in Hq as [Hq|Hq]; [auto|].
        apply list_elem_of_singleton in Hq. subst q. now cbn in Hne.
      * discriminate.
    + intros due Hd. rewrite Ht in Hd. now apply elem_of_nil in Hd.
    + intros q1 q2 H1 H2 C1 C2 Hne.
      apply elem_of_app in H1 as [H1|H1]; apply elem_of_app in H2 as [H2|H2].
      * auto.
      * apply list_elem_of_singleton in H2. subst q2. cbn in *.
        specialize (Hothers q1 H1 C1 Hne). unfold COOLDOWN_MS in *. lia.
      * apply list_elem_of_singleton in H1. subst q1. cbn in *.
        assert (Hne' : req_conn q2 <> c) by congruence.
        specialize (Hothers q2 H2 C2 Hne'). unfold COOLDOWN_MS in *. lia.
      * apply list_elem_of_singleton in H1, H2. subst. now cbn in Hne.
  - constructor; state_simpl.
    + assumption.
    + assumption.
    + intros _ q Hq C. left. auto.
    + intros c0 p0 Hc0 Hh0. apply lookup_delete_Some in Hc0 as [Hne Hc0].
      destruct Hne. symmetry. eauto.
    + intros due Hd. rewrite Ht in Hd. now apply elem_of_nil in Hd.
    + assumption.
Qed.

Lemma inv_after_restart c id r s :
  tasks s !! c = Some (AwaitRestart id) -> inv s -> inv (after_restart c r s).
Proof.
  intros Hc Hinv.
  pose proof (inv_on_catch c _ s Hc eq_refl Hinv) as Hcatch.
  unfold after_restart. destruct r as [ok|]; [|assumption].
  pose proof Hinv as [Hclock Hpast Hfree Hholder Htimer Hapart].
  destruct (Hholder c _ Hc eq_refl) as (Hr & Ht & Huniq & Hothers & _).
  constructor; state_simpl.
  - assumption.
  - assumption.
  - intros Hf. congruence.
  - intros c0 p0 Hc0 Hh0. apply lookup_delete_Some in Hc0 as [Hne Hc0].
    destruct Hne. symmetry. eauto.
  - intros due Hd. rewrite Ht in *. cbn in Hd.
    apply list_elem_of_singleton in Hd. subst due.
    split; [assumption|]. split; [reflexivity|]. split.
    + intros c0 p0 Hc0. apply lookup_delete_Some in Hc0 as [Hne Hc0].
      destruct (holds_lock p0) eqn:Hh0; [|reflexivity].
      destruct Hne. symmetry. eauto.
    + intros q Hq C. specialize (Hpast q Hq C). lia.
  - assumption.
Qed.

Lemma inv_fire s i s' : inv s -> step s (Fire i) = Some s' -> inv s'.
Proof.
  intros Hinv Hs. cbn in Hs.
  destruct (timers s !! i) as [due|] eqn:Hi; [|discriminate].
  destruct (Z.leb due (now s)) eqn:E; [|discriminate].
  injection Hs as <-. apply Z.leb_le in E.
  destruct Hinv as [Hclock Hpast Hfree Hholder Htimer Hapart].
  destruct (Htimer due (list_elem_of_lookup_2 _ _ _ Hi)) as (Hr & Ht & Hnone & Hdue).
  rewrite Ht in Hi. apply list_lookup_singleton_Some in Hi as [-> _].
  constructor; state_simpl.
  - assumption.
  - assumption.
  - intros _ q Hq C. right. specialize (Hdue q Hq C). lia.
  - intros c p Hc Hh. rewrite (Hnone _ _ Hc) in Hh. discriminate.
  - intros d Hd. rewrite Ht in Hd. cbn in Hd. now apply elem_of_nil in Hd.
  - assumption.
Qed.

Lemma inv_step s e s' : inv s -> step s e = Some s' -> inv s'.
Proof.
  intros Hinv Hs. destruct e as [d|data|c r|i].
  - cbn in Hs. destruct (Z.leb 0 d) eqn:E; [|discriminate].
    injection Hs as <-. apply Z.leb_le in E. now apply inv_tick.
  - injection Hs as <-. now apply inv_on_data.
  - cbn in Hs. destruct (tasks s !! c) as [[| |id]|] eqn:Hc;
      [| | |discriminate]; injection Hs as <-.
    + now apply inv_after_health.
    + now apply inv_after_deployment.
    + now apply (inv_after_restart c id).
  - eapply inv_fire; eauto.
Qed.

Lemma inv_run evs : forall s s', inv s -> run s evs = Some s' -> inv s'.
Proof.
  induction evs as [|e evs IH]; intros s s' Hinv Hr; cbn in Hr.
  - now injection Hr as <-.
  - destruct (step s e) as [s1|] eqn:He; [|discriminate].
    eapply IH; [|exact Hr]. eapply inv_step; eauto.
Qed.

Lemma inv_reachable s : reachable s -> inv s.
Proof.
  intros (t0 & evs & H0 & Hr). eapply inv_run; [|exact Hr]. now apply inv_init.
Qed.

(** *** Connections are numbered once and finished handlers stay silent *)

Lemma ids_init t0 : ids_ok (init t0).
Proof.
  repeat split; cbn.
  - intros c p H. now rewrite lookup_empty in H.
  - intros q H. now apply elem_of_nil in H.
  - intros c q H. now rewrite lookup_empty in H.
Qed.

(** What one step does to the tasks and the requests: only the task of the
    connection the event is about changes, and the requests added are
    sent by that connection. *)
Lemma step_footprint s e s' :
  step s e = Some s' ->
  (conns s <= conns s')%nat /\
  (forall c, subject s e <> Some c -> tasks s' !! c = tasks s !! c) /\
  exists added,
    requests s' = requests s ++ added /\
    forall q, q ∈ added ->
      subject s e = Some (req_conn q) /\
      (controller q = true -> exists c r p,
         e = Reply c r /\ tasks s' !! c = Some p /\ holds_lock p = true).
Proof.
  intros Hs. destruct e as [d|data|c r|i]; cbn in Hs.
  - destruct (Z.leb 0 d); [|discriminate]. injection Hs as <-.
    split; [reflexivity|]. split; [reflexivity|].
    exists []. split; [now rewrite app_nil_r|].
    intros q Hq. now apply elem_of_nil in Hq.
  - injection Hs as <-. unfold on_data.
    destruct (String.eqb _ _) ; [|destruct (includes _ _)]; state_simpl.
    1,2: split; [lia|]; split; [reflexivity|];
         exists []; split; [now rewrite app_nil_r|];
         intros q Hq; now apply elem_of_nil in Hq.
    split; [lia|]. split.
    + intros c Hc. apply lookup_insert_ne. congruence.
    + eexists. split; [reflexivity|]. intros q Hq.
      apply list_elem_of_singleton in Hq. subst q. split; [reflexivity|].
      discriminate.
  - destruct (tasks s !! c) as [[| |id]|] eqn:Hc; [| | |discriminate];
      injection Hs as <-.
    + unfold after_health.
      destruct (isServerRunning r); [|destruct (_ || _)]; state_simpl.
      1,2: split; [reflexivity|]; split;
           [intros c' Hc'; apply lookup_delete_ne; congruence|];
           exists []; split; [now rewrite app_nil_r|];
           intros q Hq; now apply elem_of_nil in Hq.
      split; [reflexivity|]. split.
      * intros c' Hc'. apply lookup_insert_ne. congruence.
      * eexists. split; [reflexivity|]. intros q Hq.
        apply list_elem_of_singleton in Hq. subst q. split; [reflexivity|].
        intros _. exists c, r, AwaitDeployment.
        split; [reflexivity|]. split; [apply lookup_insert_eq|reflexivity].
    + unfold after_deployment.
      destruct (fetchLatestDeployment r) as [deployment|];
        [destruct (truthy deployment); cbn;
         [destruct (id <- get deployment "id";; _ <- restartDeployment_request id;; Normal id)
            as [id|]|]|];
        state_simpl.
      2,3,4: split; [reflexivity|]; split;
           [intros c' Hc'; apply lookup_delete_ne; congruence|];
           exists []; split; [now rewrite app_nil_r|];
           intros q Hq; now apply elem_of_nil in Hq.
      split; [reflexivity|]. split.
      * intros c' Hc'. apply lookup_insert_ne. congruence.
      * eexists. split; [reflexivity|]. intros q Hq.
        apply list_elem_of_singleton in Hq. subst q. split; [reflexivity|].
        intros _. exists c, r, (AwaitRestart id).
        split; [reflexivity|]. split; [apply lookup_insert_eq|reflexivity].
    + unfold after_restart.
      destruct (restartDeployment_reply r) as [ok|]; state_simpl.
      1,2: split; [reflexivity|]; split;
           [intros c' Hc'; apply lookup_delete_ne; congruence|];
           exists []; split; [now rewrite app_nil_r|];
           intros q Hq; now apply elem_of_nil in Hq.
  - destruct (timers s !! i) as [due|]; [|discriminate].
    destruct (Z.leb due (now s)); [|discriminate]. injection Hs as <-.
    split; [reflexivity|]. split; [reflexivity|].
    exists []. split; [now rewrite app_nil_r|].
    intros q Hq. now apply elem_of_nil in Hq.
Qed.

Lemma data_counts s data : conns (on_data data s) = S (conns s).
Proof.
  unfold on_data. destruct (String.eqb _ _); [reflexivity|].
  now destruct (includes _ _).
Qed.

Lemma ids_step s e s' : ids_ok s -> step s e = Some s' -> ids_ok s'.
Proof.
  intros Hids Hs. pose proof Hids as (Ht & Hq & Hh).
  destruct (step_footprint s e s' Hs) as (Hc & Hother & added & Hreq & Hadded).
  assert (Hsub : forall c, subject s e = Some c -> (c < conns s')%nat).
  { intros c Hc'. destruct e as [d|data|c0 r|i]; cbn in Hc'; try discriminate.
    - injection Hc' as <-. cbn in Hs. injection Hs as <-.
      rewrite data_counts. lia.
    - injection Hc' as <-. cbn in Hs.
      destruct (tasks s !! c0) as [p|] eqn:E; [|discriminate].
      specialize (Ht _ _ E). lia. }
  repeat split.
  - intros c p Hcp. destruct (decide (subject s e = Some c)) as [E|E]; [auto|].
    rewrite (Hother c E) in Hcp. specialize (Ht _ _ Hcp). lia.
  - intros q Hin. rewrite Hreq in Hin. apply elem_of_app in Hin as [Hin|Hin].
    + specialize (Hq q Hin). lia.
    + apply Hsub. now apply Hadded.
  - intros c q Hcp Hin <-. rewrite Hreq in Hin.
    destruct (controller q) eqn:Hctl; [exfalso|reflexivity].
    apply elem_of_app in Hin as [Hin|Hin].
    + destruct (decide (subject s e = Some (req_conn q))) as [E|E].
      * destruct e as [d|data|c0 r|i]; cbn in E; try discriminate.
        -- injection E as E. specialize (Hq q Hin). lia.
        -- injection E as ->. cbn in Hs.
           destruct (tasks s !! req_conn q) as [[| |id]|] eqn:Hold;
             [| | |discriminate].
           ++ specialize (Hh _ q Hold Hin eq_refl). congruence.
           ++ injection Hs as <-. revert Hcp. unfold after_deployment.
              destruct (fetchLatestDeployment r) as [deployment|];
                [destruct (truthy deployment); cbn;
                 [destruct (id <- get deployment "id";; _ <- restartDeployment_request id;; Normal id)|]|];
                state_simpl; rewrite ?lookup_insert_eq, ?lookup_delete_eq;
                discriminate.
           ++ injection Hs as <-. revert Hcp. unfold after_restart.
              destruct (restartDeployment_reply r); state_simpl;
                rewrite ?lookup_delete_eq; discriminate.
      * rewrite (Hother _ E) in Hcp.
        specialize (Hh _ q Hcp Hin eq_refl). congruence.
    + destruct (Hadded q Hin) as [_ Hc']. destruct (Hc' Hctl) as (c0 & r & p & -> & Hp & Hl).
      destruct (Hadded q Hin) as [E _]. cbn in E. injection E as ->.
      rewrite Hcp in Hp. injection Hp as <-. discriminate.
Qed.

Lemma ids_run evs : forall s s', ids_ok s -> run s evs = Some s' -> ids_ok s'.
Proof.
  induction evs as [|e evs IH]; intros s s' Hi Hr; cbn in Hr.
  - now injection Hr as <-.
  - destruct (step s e) as [s1|] eqn:He; [|discriminate].
    eapply IH; [|exact Hr]. eapply ids_step; eauto.
Qed.

Lemma ids_reachable s : reachable s -> ids_ok s.
Proof.
  intros (t0 & evs & _ & Hr). eapply ids_run; [apply ids_init|exact Hr].
Qed.

(** Once its handler has ended a connection sends nothing more. *)
Lemma finished_step c s e s' :
  finished c s -> step s e = Some s' ->
  finished c s' /\ forall q, q ∈ requests s' -> req_conn q = c -> q ∈ requests s.
Proof.
  intros [Hlt Hnone] Hs.
  destruct (step_footprint s e s' Hs) as (Hc & Hother & added & Hreq & Hadded).
  assert (Hne : subject s e <> Some c).
  { destruct e as [d|data|c0 r|i]; cbn; try discriminate.
    - intros [= E]. lia.
    - intros [= ->]. cbn in Hs. rewrite Hnone in Hs. discriminate. }
  split.
  - split; [lia|]. now rewrite (Hother c Hne).
  - intros q Hin Hq. rewrite Hreq in Hin.
    apply elem_of_app in Hin as [Hin|Hin]; [assumption|].
    destruct (Hadded q Hin) as [E _]. congruence.
Qed.

Lemma finished_run evs : forall c s s',
  finished c s -> run s evs = Some s' ->
  forall q, q ∈ requests s' -> req_conn q = c -> q ∈ requests s.
Proof.
  induction evs as [|e evs IH]; intros c s s' Hf Hr q Hin Hq; cbn in Hr.
  - now injection Hr as <-.
  - destruct (step s e) as [s1|] eqn:He; [|discriminate].
    destruct (finished_step c s e s1 Hf He) as [Hf1 Hback].
    apply Hback; [|assumption]. eapply IH; eauto.
Qed.

(** *** The time stamp belongs to the lock holder *)

Lemma stamped_init t0 : stamped (init t0).
Proof. intros c p H. cbn in H. now rewrite lookup_empty in H. Qed.

Lemma stamped_step s e s' :
  inv s -> stamped s -> step s e = Some s' -> stamped s'.
Proof.
  intros Hinv Hst Hs c p Hc Hh. destruct e as [d|data|c0 r|i]; cbn in Hs.
  - destruct (Z.leb 0 d); [|discriminate]. injection Hs as <-. eauto.
  - injection Hs as <-. revert Hc. unfold on_data.
    destruct (String.eqb _ _); [|destruct (includes _ _)]; state_simpl; eauto.
    intros Hc. apply lookup_insert_Some in Hc as [[_ <-]|[_ Hc]]; [discriminate|].
    apply elem_of_app. left. eauto.
  - destruct (tasks s !! c0) as [[| |id]|] eqn:Hc0; [| | |discriminate];
      injection Hs as <-; revert Hc.
    + unfold after_health. destruct (isServerRunning r).
      { state_simpl. intros Hc. apply lookup_delete_Some in Hc as [_ Hc]. eauto. }
      destruct (restarting s) eqn:Hr.
      { state_simpl. intros Hc. apply lookup_delete_Some in Hc as [_ Hc]. eauto. }
      cbn. destruct (Z.ltb _ _).
      { state_simpl. intros Hc. apply lookup_delete_Some in Hc as [_ Hc]. eauto. }
      destruct (free_no_holder s Hinv Hr) as [_ Hnone].
      state_simpl. intros Hc. apply elem_of_app. right.
      apply lookup_insert_Some in Hc as [[-> _]|[_ Hc]].
      * now apply list_elem_of_singleton.
      * rewrite (Hnone _ _ Hc) in Hh. discriminate.
    + unfold after_deployment.
      destruct (fetchLatestDeployment r) as [deployment|];
        [destruct (truthy deployment); cbn;
         [destruct (id <- get deployment "id";; _ <- restartDeployment_request id;; Normal id)
            as [id|]|]|];
        state_simpl.
      2,3,4: intros Hc; apply lookup_delete_Some in Hc as [_ Hc]; eauto.
      intros Hc. apply elem_of_app. left.
      apply lookup_insert_Some in Hc as [[-> _]|[_ Hc]];
        [apply (Hst _ _ Hc0 eq_refl) | eauto].
    + unfold after_restart.
      destruct (restartDeployment_reply r) as [ok|]; state_simpl;
        intros Hc; apply lookup_delete_Some in Hc as [_ Hc]; eauto.
  - destruct (timers s !! i) as [due|]; [|discriminate].
    destruct (Z.leb due (now s)); [|discriminate]. injection Hs as <-. eauto.
Qed.

Lemma stamped_run evs : forall s s',
  inv s -> stamped s -> run s evs = Some s' -> stamped s'.
Proof.
  induction evs as [|e evs IH]; intros s s' Hinv Hst Hr; cbn in Hr.
  - now injection Hr as <-.
  - destruct (step s e) as [s1|] eqn:He; [|discriminate].
    eapply IH; [| |exact Hr].
    + eapply inv_step; eauto.
    + eapply stamped_step; eauto.
Qed.

Lemma stamped_reachable s : reachable s -> stamped s.
Proof.
  intros (t0 & evs & H0 & Hr).
  apply (stamped_run evs (init t0) s); [now apply inv_init|apply stamped_init|exact Hr].
Qed.

End Invariants.

(* ===================================================================== *)
(** ** The wake attempt whose controller call throws *)
(* ===================================================================== *)

Section Throw.
Import Js Http Proxy.

Lemma stuck_step s e s' : stuck s -> step s e = Some s' -> stuck s'.
Proof.
  intros (Hr & Ht & Hp) Hs. destruct e as [d|data|c r|i]; cbn in Hs.
  - destruct (Z.leb 0 d); [|discriminate]. injection Hs as <-.
    repeat split; assumption.
  - injection Hs as <-. unfold on_data.
    destruct (String.eqb _ _); [repeat split; assumption|].
    destruct (includes _ _); [repeat split; assumption|].
    repeat split; try assumption. state_simpl.
    intros c p H. apply lookup_insert_Some in H as [[_ <-]|[_ H]]; eauto.
  - destruct (tasks s !! c) as [p|] eqn:Hc; [|discriminate].
    pose proof (Hp _ _ Hc) as Hl. destruct p; try discriminate.
    injection Hs as <-. unfold after_health. rewrite Hr.
    destruct (isServerRunning r); cbn;
      (repeat split; try assumption; state_simpl;
       intros c' p H; apply lookup_delete_Some in H as [_ H]; eauto).
  - rewrite Ht in Hs. discriminate.
Qed.

Lemma stuck_run evs : forall s s', stuck s -> run s evs = Some s' -> stuck s'.
Proof.
  induction evs as [|e evs IH]; intros s s' Hst Hr; cbn in Hr.
  - now injection Hr as <-.
  - destruct (step s e) as [s1|] eqn:He; [|discriminate].
    eapply IH; [|exact Hr]. eapply stuck_step; eauto.
Qed.

(** When the restart wrapper returns, with either answer, the handler
    writes the matching message, ends, and schedules the release
    [COOLDOWN_MS] from now; the lock itself is not touched. *)
Lemma restart_returns_schedules_release s c id r ok :
  tasks s !! c = Some (AwaitRestart id) ->
  restartDeployment_reply r = Normal ok ->
  exists s',
    step s (Reply c r) = Some s' /\
    restarting s' = restarting s /\
    timers s' = timers s ++ [now s + COOLDOWN_MS] /\
    sockets s' = sockets s ++ [(c, Some (if ok then msg_starting else msg_error))] /\
    tasks s' = delete c (tasks s).
Proof.
  intros Ht Hr. eexists. split.
  - cbn. rewrite Ht, Hr. reflexivity.
  - repeat split.
Qed.

(** A release fires no earlier than its due time, and frees the lock. *)
Lemma fire_releases s i s' :
  step s (Fire i) = Some s' ->
  exists due, timers s !! i = Some due /\ due <= now s /\
              restarting s' = false /\ timers s' = delete i (timers s).
Proof.
  cbn. destruct (timers s !! i) as [due|]; [|discriminate].
  destruct (Z.leb due (now s)) eqn:E; [|discriminate].
  intros [= <-]. exists due. apply Z.leb_le in E. repeat split; assumption.
Qed.

(** C3 (the code at the failing inputs): a transport error makes both
    controller wrappers throw instead of returning none / false, and so
    does a non-2xx response with a body that is not JSON; a non-2xx
    response whose JSON body has no [errors] field makes
    [restartDeployment] return true.  In the handler the exception of
    [fetchLatestDeployment] reaches the [catch] of line 183: the socket is
    closed with no text, and the lock taken at line 158 stays held with no
    release pending. *)
Theorem C3_wrappers_throw :
  fetchLatestDeployment NetworkError = Thrown /\
  fetchLatestDeployment reply_bad_gateway = Thrown /\
  restartDeployment (Val (JStr "d1")) NetworkError = Thrown /\
  restartDeployment (Val (JStr "d1")) reply_bad_gateway = Thrown /\
  restartDeployment (Val (JStr "d1")) reply_unauthorized = Normal true /\
  exists s,
    run (init t_start) [Data "steve"; Reply 0 reply_down; Reply 0 NetworkError]
      = Some s /\
    sockets s = [(0%nat, None)] /\
    requests s = [Request 0 HealthCheck t_start;
                  Request 0 LatestDeployment t_start] /\
    stuck s.
Proof.
  do 5 (split; [reflexivity|]).
  eexists. split; [vm_compute; reflexivity|].
  split; [reflexivity|]. split; [reflexivity|].
  split; [reflexivity|]. split; [reflexivity|].
  intros c p H. change (tasks _) with (∅ : gmap nat pc) in H.
  now rewrite lookup_empty in H.
Qed.

(** C4 (the code at the failing input): the wake attempt of connection 0
    sends the restart request and the request fails on the network.  The
    wrapper throws, the handler's [catch] closes the socket, line 179 is
    never reached: the lock is held, no release is pending, and whatever
    happens afterwards (time passing included) the lock stays held. *)
Theorem C4_restart_throw_keeps_lock :
  exists s,
    run (init t_start)
      [Data "steve"; Reply 0 reply_down; Reply 0 reply_deployment_d1;
       Reply 0 NetworkError] = Some s /\
    requests s = [Request 0 HealthCheck t_start;
                  Request 0 LatestDeployment t_start;
                  Request 0 (DeploymentRestart (Val (JStr "d1"))) t_start] /\
    sockets s = [(0%nat, None)] /\
    restarting s = true /\ timers s = [] /\
    forall evs s', run s evs = Some s' -> restarting s' = true.
Proof.
  eexists. split; [vm_compute; reflexivity|].
  split; [reflexivity|]. split; [reflexivity|].
  split; [reflexivity|]. split; [reflexivity|].
  intros evs s' H. eapply stuck_run in H; [apply H|].
  split; [reflexivity|]. split; [reflexivity|].
  intros c p Hc. change (tasks _) with (∅ : gmap nat pc) in Hc.
  now rewrite lookup_empty in Hc.
Qed.

End Throw.

(* ===================================================================== *)
(** ** The wake attempt that finds no deployment *)
(* ===================================================================== *)

Section NoDeployment.
Import Js Http Proxy.

Lemma no_deployment_step s c r d :
  tasks s !! c = Some AwaitDeployment ->
  fetchLatestDeployment r = Normal d ->
  truthy d = false ->
  step s (Reply c r)
  = Some (finish c (set_restarting false
                      (socket_end c (Some msg_no_deployment) s))).
Proof.
  intros Ht Hr Hd. cbn. rewrite Ht, Hr. cbn. now rewrite Hd.
Qed.

Lemma second_connection_run s data d1 d2 r :
  non_probe data -> 0 <= d1 -> 0 <= d2 ->
  run s (second_connection data d1 d2 r s)
  = Some (after_health (conns s) (isServerRunning r)
            (set_now (now s + d1 + d2)
               (on_data data (set_now (now s + d1) s)))).
Proof.
  intros Hd H1 H2. unfold second_connection, run, step.
  apply Z.leb_le in H1, H2. rewrite H1.
  rewrite (on_data_non_probe _ _ Hd). cbn. rewrite H2.
  replace (tasks _ !! conns s) with (Some AwaitHealth); [reflexivity|].
  state_simpl. now rewrite lookup_insert_eq.
Qed.

(** Served once the lock is free and the cooldown is over, the connection
    starts a wake attempt. *)
Lemma second_connection_wakes s data d1 d2 r :
  non_probe data -> isServerRunning r = false ->
  0 <= d1 -> 0 <= d2 ->
  restarting s = false ->
  COOLDOWN_MS <= now s + d1 + d2 - lastWake s ->
  exists s2,
    run s (second_connection data d1 d2 r s) = Some s2 /\
    tasks s2 !! conns s = Some AwaitDeployment /\
    restarting s2 = true /\
    lastWake s2 = now s + d1 + d2 /\
    sockets s2 = sockets s /\
    requests s2 = requests s ++
      [Request (conns s) HealthCheck (now s + d1);
       Request (conns s) LatestDeployment (now s + d1 + d2)].
Proof.
  intros Hdata Hr H1 H2 Hf Hcd.
  eexists. split; [exact (second_connection_run _ _ _ _ _ Hdata H1 H2)|].
  rewrite Hr, (on_data_non_probe _ _ Hdata).
  apply Z.ltb_ge in Hcd.
  unfold after_health. cbn. rewrite Hf, Hcd. cbn. repeat split.
  - apply lookup_insert_eq.
  - now rewrite <- app_assoc.
Qed.

(** Served while the lock is held or before the cooldown is over, it is
    told to wait. *)
Lemma second_connection_waits s data d1 d2 r :
  non_probe data -> isServerRunning r = false ->
  0 <= d1 -> 0 <= d2 ->
  restarting s = true \/ now s + d1 + d2 - lastWake s < COOLDOWN_MS ->
  exists s2,
    run s (second_connection data d1 d2 r s) = Some s2 /\
    sockets s2 = sockets s ++ [(conns s, Some msg_wait)] /\
    wake_state s2 = wake_state s /\
    requests s2 = requests s ++ [Request (conns s) HealthCheck (now s + d1)] /\
    controller_requests s2 = controller_requests s.
Proof.
  intros Hdata Hr H1 H2 Hb.
  eexists. split; [exact (second_connection_run _ _ _ _ _ Hdata H1 H2)|].
  rewrite Hr, (on_data_non_probe _ _ Hdata).
  assert (E : restarting s || Z.ltb (now s + d1 + d2 - lastWake s) COOLDOWN_MS
              = true).
  { destruct Hb as [Hb|Hb]; [now rewrite Hb|].
    apply Z.ltb_lt in Hb. rewrite Hb. apply orb_true_r. }
  unfold after_health. cbn. rewrite E. cbn. repeat split.
  unfold controller_requests. cbn. rewrite List.filter_app. cbn.
  apply app_nil_r.
Qed.

(** C2, the claim as stated fails: the attempt of connection 0 finds no
    deployment and the lock is free at once, yet connection 1, handled
    immediately afterwards with the server still down, gets the
    starting-please-wait message and sends nothing to the controller. *)
Lemma C2_second_connection_waits :
  let first := [Data "steve"; Reply 0 reply_down; Reply 0 reply_no_deployment] in
  let second := [Data "alex"; Reply 1 reply_down] in
  option_map wake_state (run (init t_start) first)
    = Some (false, t_start, []) /\
  option_map sockets (run (init t_start) first)
    = Some [(0%nat, Some msg_no_deployment)] /\
  option_map sockets (run (init t_start) (first ++ second))
    = Some [(0%nat, Some msg_no_deployment); (1%nat, Some msg_wait)] /\
  option_map controller_requests (run (init t_start) (first ++ second))
    = Some [Request 0 LatestDeployment t_start].
Proof. repeat split; vm_compute; reflexivity. Qed.

(** C2 (amended): when [fetchLatestDeployment] yields no deployment the
    lock is released in that very step (same clock value, no timer
    added, [lastWake] kept) and the no-deployment message is written; a
    second real connection attempt served afterwards with the server still
    down reaches the wake step again (takes the lock, stamps [lastWake],
    sends the latest-deployment request) if its cooldown check runs at
    least [COOLDOWN_MS] after the [lastWake] of the failed attempt, and
    gets the starting-please-wait message, with nothing sent to the
    controller, if the check runs earlier. *)
Theorem C2_no_deployment_release (s : state) (c : nat) (r : reply) (d : value) :
  tasks s !! c = Some AwaitDeployment ->
  fetchLatestDeployment r = Normal d ->
  truthy d = false ->
  exists s1,
    step s (Reply c r) = Some s1 /\
    restarting s1 = false /\
    now s1 = now s /\
    timers s1 = timers s /\
    lastWake s1 = lastWake s /\
    sockets s1 = sockets s ++ [(c, Some msg_no_deployment)] /\
    forall data d1 d2 r2,
      non_probe data -> isServerRunning r2 = false ->
      0 <= d1 -> 0 <= d2 ->
      (COOLDOWN_MS <= now s1 + d1 + d2 - lastWake s1 ->
       exists s2,
         run s1 (second_connection data d1 d2 r2 s1) = Some s2 /\
         tasks s2 !! conns s1 = Some AwaitDeployment /\
         restarting s2 = true /\
         lastWake s2 = now s1 + d1 + d2 /\
         requests s2 = requests s1 ++
           [Request (conns s1) HealthCheck (now s1 + d1);
            Request (conns s1) LatestDeployment (now s1 + d1 + d2)]) /\
      (now s1 + d1 + d2 - lastWake s1 < COOLDOWN_MS ->
       exists s2,
         run s1 (second_connection data d1 d2 r2 s1) = Some s2 /\
         sockets s2 = sockets s1 ++ [(conns s1, Some msg_wait)] /\
         controller_requests s2 = controller_requests s1).
Proof.
  intros Ht Hr Hd.
  pose (s1 := finish c (set_restarting false
                          (socket_end c (Some msg_no_deployment) s))).
  exists s1. split; [exact (no_deployment_step _ _ _ _ Ht Hr Hd)|].
  do 5 (split; [reflexivity|]).
  intros data d1 d2 r2 Hdata Hr2 H1 H2. split; intros Hcd.
  - destruct (second_connection_wakes s1 data d1 d2 r2 Hdata Hr2 H1 H2 eq_refl Hcd)
      as (s2 & G1 & G2 & G3 & G4 & G5 & G6).
    exists s2. repeat split; assumption.
  - destruct (second_connection_waits s1 data d1 d2 r2 Hdata Hr2 H1 H2
                (or_intror Hcd)) as (s2 & G1 & G2 & G3 & G4 & G5).
    exists s2. repeat split; assumption.
Qed.

Lemma C2_no_deployment_release_witness :
  let s := after_health 0 false (on_data "steve" (init t_start)) in
  exists s1,
    step s (Reply 0 reply_no_deployment) = Some s1 /\
    restarting s1 = false /\
    now s1 = now s /\
    timers s1 = timers s /\
    lastWake s1 = lastWake s /\
    sockets s1 = sockets s ++ [(0%nat, Some msg_no_deployment)] /\
    forall data d1 d2 r2,
      non_probe data -> isServerRunning r2 = false ->
      0 <= d1 -> 0 <= d2 ->
      (COOLDOWN_MS <= now s1 + d1 + d2 - lastWake s1 ->
       exists s2,
         run s1 (second_connection data d1 d2 r2 s1) = Some s2 /\
         tasks s2 !! conns s1 = Some AwaitDeployment /\
         restarting s2 = true /\
         lastWake s2 = now s1 + d1 + d2 /\
         requests s2 = requests s1 ++
           [Request (conns s1) HealthCheck (now s1 + d1);
            Request (conns s1) LatestDeployment (now s1 + d1 + d2)]) /\
      (now s1 + d1 + d2 - lastWake s1 < COOLDOWN_MS ->
       exists s2,
         run s1 (second_connection data d1 d2 r2 s1) = Some s2 /\
         sockets s2 = sockets s1 ++ [(conns s1, Some msg_wait)] /\
         controller_requests s2 = controller_requests s1).
Proof.
  intros s.
  apply (C2_no_deployment_release s 0 reply_no_deployment (Val JNull));
    vm_compute; reflexivity.
Defined.

(** C7, the claim as stated fails: connection 1 arrives 59999 ms after the
    failed attempt's start (within the cooldown), the server is still
    down, but its health round trip ends 2 ms later; the cooldown check
    then passes and it sends the latest-deployment request instead of
    being answered by the cooldown branch. *)
Lemma C7_late_health_reply_rewakes :
  let first := [Data "steve"; Reply 0 reply_down; Reply 0 reply_no_deployment] in
  let second := [Tick 59999; Data "alex"; Tick 2; Reply 1 reply_down] in
  option_map wake_state (run (init t_start) first)
    = Some (false, t_start, []) /\
  (t_start + 59999) - t_start < COOLDOWN_MS /\
  option_map requests (run (init t_start) (first ++ second))
    = Some [Request 0 HealthCheck t_start;
            Request 0 LatestDeployment t_start;
            Request 1 HealthCheck (t_start + 59999);
            Request 1 LatestDeployment (t_start + 60001)] /\
  option_map sockets (run (init t_start) (first ++ second))
    = Some [(0%nat, Some msg_no_deployment)].
Proof. repeat split; vm_compute; reflexivity. Qed.

(** C7 (amended): in the no-deployment path only the lock is reset;
    [lastWake] keeps its value, which is the time at which this attempt
    took the lock and sent its latest-deployment request.  So a second
    real connection attempt served afterwards with the server still down,
    whose cooldown check runs less than [COOLDOWN_MS] after that time, is
    answered by the cooldown branch (the starting-please-wait message),
    sends nothing but its health request and leaves the wake state
    alone. *)
Theorem C7_no_deployment_keeps_lastWake
    (s : state) (c : nat) (r : reply) (d : value) :
  reachable s ->
  tasks s !! c = Some AwaitDeployment ->
  fetchLatestDeployment r = Normal d ->
  truthy d = false ->
  exists s1,
    step s (Reply c r) = Some s1 /\
    restarting s1 = false /\
    lastWake s1 = lastWake s /\
    Request c LatestDeployment (lastWake s1) ∈ requests s1 /\
    forall data d1 d2 r2,
      non_probe data -> isServerRunning r2 = false ->
      0 <= d1 -> 0 <= d2 ->
      now s1 + d1 + d2 - lastWake s1 < COOLDOWN_MS ->
      exists s2,
        run s1 (second_connection data d1 d2 r2 s1) = Some s2 /\
        sockets s2 = sockets s1 ++ [(conns s1, Some msg_wait)] /\
        wake_state s2 = wake_state s1 /\
        requests s2 = requests s1 ++
          [Request (conns s1) HealthCheck (now s1 + d1)] /\
        controller_requests s2 = controller_requests s1.
Proof.
  intros Hreach Ht Hr Hd.
  pose (s1 := finish c (set_restarting false
                          (socket_end c (Some msg_no_deployment) s))).
  exists s1. split; [exact (no_deployment_step _ _ _ _ Ht Hr Hd)|].
  do 2 (split; [reflexivity|]). split.
  - exact (stamped_reachable s Hreach c _ Ht eq_refl).
  - intros data d1 d2 r2 Hdata Hr2 H1 H2 Hcd.
    exact (second_connection_waits s1 data d1 d2 r2 Hdata Hr2 H1 H2
             (or_intror Hcd)).
Qed.

Lemma C7_no_deployment_keeps_lastWake_witness :
  let s := after_health 0 false (on_data "steve" (init t_start)) in
  exists s1,
    step s (Reply 0 reply_no_deployment) = Some s1 /\
    restarting s1 = false /\
    lastWake s1 = lastWake s /\
    Request 0 LatestDeployment (lastWake s1) ∈ requests s1 /\
    forall data d1 d2 r2,
      non_probe data -> isServerRunning r2 = false ->
      0 <= d1 -> 0 <= d2 ->
      now s1 + d1 + d2 - lastWake s1 < COOLDOWN_MS ->
      exists s2,
        run s1 (second_connection data d1 d2 r2 s1) = Some s2 /\
        sockets s2 = sockets s1 ++ [(conns s1, Some msg_wait)] /\
        wake_state s2 = wake_state s1 /\
        requests s2 = requests s1 ++
          [Request (conns s1) HealthCheck (now s1 + d1)] /\
        controller_requests s2 = controller_requests s1.
Proof.
  intros s.
  assert (Hreach : reachable s).
  { exists t_start, [Data "steve"; Reply 0 reply_down].
    split; [vm_compute; discriminate | vm_compute; reflexivity]. }
  apply (C7_no_deployment_keeps_lastWake s 0 reply_no_deployment (Val JNull) Hreach);
    vm_compute; reflexivity.
Defined.

End NoDeployment.

(* ===================================================================== *)
(** ** The cooldown: at most one wake attempt per window *)
(* ===================================================================== *)

Section Cooldown.
Import Js Http Proxy.

(** A connection answered at the health check or at the cooldown check
    ends there. *)
Lemma answered_early s c r :
  tasks s !! c = Some AwaitHealth ->
  isServerRunning r = true \/ restarting s = true
    \/ now s - lastWake s < COOLDOWN_MS ->
  exists text,
    step s (Reply c r) = Some (finish c (socket_end c (Some text) s)).
Proof.
  intros Hc H. cbn. rewrite Hc. unfold after_health.
  destruct (isServerRunning r); [eauto|].
  destruct H as [H|[H|H]]; [discriminate| |].
  - rewrite H. eauto.
  - apply Z.ltb_lt in H. rewrite H, orb_true_r. eauto.
Qed.

(** Controller requests of different connections are at least
    [COOLDOWN_MS] apart. *)
Lemma controller_requests_apart s :
  reachable s ->
  forall q1 q2, q1 ∈ requests s -> q2 ∈ requests s ->
    controller q1 = true -> controller q2 = true ->
    req_conn q1 <> req_conn q2 ->
    COOLDOWN_MS <= Z.abs (req_time q1 - req_time q2).
Proof. intros H. apply inv_apart. now apply inv_reachable. Qed.

(** C1, the claim as stated fails: connection 0 passes the cooldown check
    at [t_start] and restarts the deployment; the handling of connection 1
    starts 50 s later, within the cooldown and with the lock still held,
    but its health round trip takes 15 s, during which the release fires;
    its cooldown check then passes and it sends the latest-deployment
    request. *)
Lemma C1_slow_health_check_rewakes :
  let first := [Data "steve"; Reply 0 reply_down;
                Reply 0 reply_deployment_d1; Reply 0 reply_restart_ok] in
  let arrival := [Tick 50000; Data "alex"] in
  let rest := [Tick 10000; Fire 0; Tick 5000; Reply 1 reply_down] in
  option_map wake_state (run (init t_start) (first ++ arrival))
    = Some (true, t_start, [t_start + COOLDOWN_MS]) /\
  option_map now (run (init t_start) (first ++ arrival))
    = Some (t_start + 50000) /\
  option_map requests (run (init t_start) (first ++ arrival ++ rest))
    = Some [Request 0 HealthCheck t_start;
            Request 0 LatestDeployment t_start;
            Request 0 (DeploymentRestart (Val (JStr "d1"))) t_start;
            Request 1 HealthCheck (t_start + 50000);
            Request 1 LatestDeployment (t_start + 65000)].
Proof. repeat split; vm_compute; reflexivity. Qed.

(** C1 (amended): in every reachable state, whatever the interleaving of
    connections, replies, timers and clock ticks,
    - the requests to the Deployment Controller sent inside any window
      [a, a + COOLDOWN_MS) all belong to one connection, that is, to one
      wake attempt;
    - a connection whose cooldown check passes takes the lock, stamps
      [lastWake] with the current time and sends the latest-deployment
      request at that instant;
    - a connection whose cooldown check runs while the lock is held or
      less than [COOLDOWN_MS] after [lastWake] ends there, leaves the wake
      state alone and never sends a controller request, now or later. *)
Theorem C1_cooldown_window (s : state) :
  reachable s ->
  (forall a q1 q2, q1 ∈ requests s -> q2 ∈ requests s ->
     controller q1 = true -> controller q2 = true ->
     a <= req_time q1 < a + COOLDOWN_MS ->
     a <= req_time q2 < a + COOLDOWN_MS ->
     req_conn q1 = req_conn q2) /\
  (forall c r, tasks s !! c = Some AwaitHealth ->
     isServerRunning r = false ->
     restarting s = false -> COOLDOWN_MS <= now s - lastWake s ->
     exists s',
       step s (Reply c r) = Some s' /\
       restarting s' = true /\ lastWake s' = now s /\
       tasks s' !! c = Some AwaitDeployment /\
       requests s' = requests s ++ [Request c LatestDeployment (now s)]) /\
  (forall c r, tasks s !! c = Some AwaitHealth ->
     restarting s = true \/ now s - lastWake s < COOLDOWN_MS ->
     exists s',
       step s (Reply c r) = Some s' /\
       wake_state s' = wake_state s /\
       forall evs s'', run s' evs = Some s'' ->
         forall q, q ∈ requests s'' -> req_conn q = c -> controller q = false).
Proof.
  intros Hreach. split; [|split].
  - intros a q1 q2 H1 H2 C1 C2 W1 W2.
    destruct (decide (req_conn q1 = req_conn q2)) as [E|E]; [exact E|].
    pose proof (controller_requests_apart s Hreach q1 q2 H1 H2 C1 C2 E). lia.
  - intros c r Hc Hr Hf Hcd. eexists. split.
    + cbn. rewrite Hc, Hr. unfold after_health. rewrite Hf. cbn.
      apply Z.ltb_ge in Hcd. rewrite Hcd. reflexivity.
    + state_simpl. repeat split. apply lookup_insert_eq.
  - intros c r Hc Hb.
    destruct (answered_early s c r Hc (or_intror Hb)) as [text Hs].
    eexists. split; [exact Hs|]. split; [reflexivity|].
    destruct (ids_reachable s Hreach) as (Ht & _ & Hh).
    intros evs s'' Hrun q Hin Hq.
    assert (Hfin : finished c (finish c (socket_end c (Some text) s))).
    { split; [exact (Ht _ _ Hc)|]. state_simpl. apply lookup_delete_eq. }
    apply (Hh c q Hc); [|assumption].
    exact (finished_run evs c _ s'' Hfin Hrun q Hin Hq).
Qed.

Lemma C1_cooldown_window_witness :
  let s := on_data "alex" (after_health 0 false (on_data "steve" (init t_start))) in
  exists s',
    step s (Reply 1 reply_down) = Some s' /\
    wake_state s' = wake_state s /\
    forall evs s'', run s' evs = Some s'' ->
      forall q, q ∈ requests s'' -> req_conn q = 1%nat -> controller q = false.
Proof.
  intros s.
  assert (Hreach : reachable s).
  { exists t_start, [Data "steve"; Reply 0 reply_down; Data "alex"].
    split; [vm_compute; discriminate | vm_compute; reflexivity]. }
  apply (proj2 (proj2 (C1_cooldown_window s Hreach))).
  - vm_compute. reflexivity.
  - left. vm_compute. reflexivity.
Defined.

End Cooldown.

(* ===================================================================== *)
(** ** The token of the first chunk and the probe marker *)
(* ===================================================================== *)

Section Token.
Import Js Http Proxy.


Lemma username_app a b : username (a +:+ b) = username a +:+ username b.
Proof.
  induction a as [|x a IH]; simpl; [reflexivity|].
  destruct (is_word x); simpl; now rewrite IH.
Qed.



Lemma prefix_spec p s :
  String.prefix p s = true <-> exists post, s = p +:+ post.
Proof.
  revert s. induction p as [|x p IH]; intros s.
  - split; [intros _; now exists s | intros _; now destruct s].
  - destruct s as [|y s]; cbn.
    + split; [discriminate | intros [post H]; discriminate].
    + destruct (Ascii.ascii_dec x y) as [->|Hne].
      * rewrite IH. split; intros [post H]; exists post;
          [simpl; now rewrite H | simpl in H; now injection H].
      * split; [discriminate|]. intros [post H]. simpl in H.
        injection H as E _. now destruct Hne.
Qed.

Lemma includes_spec needle hay :
  includes needle hay = true <->
  exists pre post, hay = pre +:+ needle +:+ post.
Proof.
  induction hay as [|y hay IH]; cbn [includes]; rewrite orb_true_iff.
  - rewrite prefix_spec. split.
    + intros [[post H]|H]; [|discriminate]. now exists "", post.
    + intros (pre & post & H). left. exists post.
      destruct pre; [exact H|discriminate].
  - rewrite prefix_spec, IH. split.
    + intros [[post H]|(pre & post & H)].
      * now exists "", post.
      * exists (String y pre), post. cbn. now rewrite H.
    + intros (pre & post & H). destruct pre as [|x pre]; cbn in H.
      * left. now exists post.
      * right. exists pre, post. now injection H.
Qed.

Lemma string_length_app (a b : string) :
  String.length (a +:+ b) = (String.length a + String.length b)%nat.
Proof. induction a as [|x a IH]; simpl; [reflexivity|]. now rewrite IH. Qed.

(** X2: the probe test of line 138 is true exactly when the marker occurs
    in the token as a contiguous run of characters; in particular a token
    shorter than the marker never matches. *)
Theorem X2_includes_substring (needle hay : string) :
  (includes needle hay = true <->
   exists pre post, hay = pre +:+ needle +:+ post) /\
  (String.length hay < String.length needle -> includes needle hay = false)%nat.
Proof.
  split; [apply includes_spec|].
  intros Hlen. destruct (includes needle hay) eqn:E; [|reflexivity].
  apply includes_spec in E as (pre & post & ->).
  rewrite !string_length_app in Hlen. lia.
Qed.

Lemma X2_includes_substring_witness :
  includes "MCPingHost" "MCPing" = false.
Proof.
  apply (proj2 (X2_includes_substring "MCPingHost" "MCPing")).
  vm_compute. lia.
Defined.

(** X3: a first chunk in which the word bytes of some stretch spell the
    marker [MCPingHost] is dropped like a probe wherever the stretch
    stands and whatever surrounds or interrupts it: the socket is closed
    with no text, no request is sent, no handler is started and the wake
    state is left alone.  This includes a player name that contains the
    marker. *)
Theorem X3_marker_anywhere (s : state) (pre mid post : string) :
  username mid = "MCPingHost" ->
  exists s',
    step s (Data (pre +:+ mid +:+ post)) = Some s' /\
    sockets s' = sockets s ++ [(conns s, None)] /\
    requests s' = requests s /\
    tasks s' = tasks s /\
    wake_state s' = wake_state s.
Proof.
  intros H. eexists. split; [reflexivity|].
  assert (E : includes "MCPingHost" (username (pre +:+ mid +:+ post)) = true).
  { apply includes_spec. exists (username pre), (username post).
    now rewrite !username_app, H. }
  unfold on_data. rewrite E.
  destruct (String.eqb _ _); repeat split.
Qed.

Lemma X3_marker_anywhere_witness :
  exists s',
    step (init t_start) (Data ("xX_" +:+ "MC|Ping Host" +:+ "_Xx" +:+ newline))
      = Some s' /\
    sockets s' = sockets (init t_start) ++ [(conns (init t_start), None)] /\
    requests s' = requests (init t_start) /\
    tasks s' = tasks (init t_start) /\
    wake_state s' = wake_state (init t_start).
Proof.
  apply (X3_marker_anywhere (init t_start) "xX_" "MC|Ping Host" ("_Xx" +:+ newline)).
  reflexivity.
Defined.

End Token.

(* ===================================================================== *)
(** ** Every connection is answered once, with one of five texts *)
(* ===================================================================== *)

Section Answers.
Import Js Http Proxy.

Lemma run_app evs1 : forall s evs2,
  run s (evs1 ++ evs2)
  = match run s evs1 with
    | Some s1 => run s1 evs2
    | None => None
    end.
Proof.
  induction evs1 as [|e evs1 IH]; intros s evs2; cbn; [reflexivity|].
  destruct (step s e); [apply IH | reflexivity].
Qed.

Lemma reachable_step s e s' :
  reachable s -> step s e = Some s' -> reachable s'.
Proof.
  intros (t0 & evs & H0 & Hr) Hs. exists t0, (evs ++ [e]).
  split; [assumption|]. rewrite run_app, Hr. cbn. now rewrite Hs.
Qed.

Lemma reachable_run evs : forall s s',
  reachable s -> run s evs = Some s' -> reachable s'.
Proof.
  induction evs as [|e evs IH]; intros s s' Hs Hr; cbn in Hr.
  - now injection Hr as <-.
  - destruct (step s e) as [s1|] eqn:He; [|discriminate].
    eapply IH; [|exact Hr]. eapply reachable_step; eauto.
Qed.

(** Induction over the reachable states. *)
Lemma reachable_ind (P : state -> Prop) :
  (forall t0, 0 <= t0 -> P (init t0)) ->
  (forall s e s', reachable s -> P s -> step s e = Some s' -> P s') ->
  forall s, reachable s -> P s.
Proof.
  intros Hinit Hstep s (t0 & evs & H0 & Hr).
  assert (G : forall evs s0 s, reachable s0 -> P s0 ->
                run s0 evs = Some s -> P s).
  { intros evs0. induction evs0 as [|e evs0 IH]; intros s0 s1 R0 P0 Hr0;
      cbn in Hr0.
    - now injection Hr0 as <-.
    - destruct (step s0 e) as [s2|] eqn:He; [|discriminate].
      apply (IH s2 s1);
        [eapply reachable_step; eauto | eapply Hstep; eauto | exact Hr0]. }
  apply (G evs (init t0) s); [|now apply Hinit|exact Hr].
  exists t0, []. now split.
Qed.

(** What one turn does to the sockets, the tasks and the counter. *)
Lemma step_shape s e s' :
  step s e = Some s' ->
  match e with
  | Tick _ | Fire _ =>
      sockets s' = sockets s /\ tasks s' = tasks s /\ conns s' = conns s
  | Data _ =>
      conns s' = S (conns s) /\
      ((sockets s' = sockets s ++ [(conns s, None)] /\ tasks s' = tasks s) \/
       (sockets s' = sockets s /\
        tasks s' = <[conns s := AwaitHealth]> (tasks s)))
  | Reply c _ =>
      conns s' = conns s /\
      exists p, tasks s !! c = Some p /\
        ((exists t, t ∈ known_texts /\
            sockets s' = sockets s ++ [(c, t)] /\
            tasks s' = delete c (tasks s)) \/
         (exists p', sockets s' = sockets s /\
            tasks s' = <[c := p']> (tasks s)))
  end.
Proof.
  intros Hs. destruct e as [d|data|c r|i]; cbn in Hs.
  - destruct (Z.leb 0 d); [|discriminate]. now injection Hs as <-.
  - injection Hs as <-. unfold on_data.
    destruct (String.eqb _ _); [|destruct (includes _ _)]; cbn; auto.
  - destruct (tasks s !! c) as [p|] eqn:Hc; [|discriminate].
    assert (Hend : forall t s0, t ∈ known_texts ->
              sockets s0 = sockets s -> tasks s0 = tasks s ->
              conns s0 = conns s ->
              conns (finish c (socket_end c t s0)) = conns s /\
              exists p0, Some p = Some p0 /\
                ((exists t0, t0 ∈ known_texts /\
                    sockets (finish c (socket_end c t s0))
                      = sockets s ++ [(c, t0)] /\
                    tasks (finish c (socket_end c t s0)) = delete c (tasks s)) \/
                 (exists p', sockets (finish c (socket_end c t s0)) = sockets s /\
                    tasks (finish c (socket_end c t s0)) = <[c := p']> (tasks s)))).
    { intros t s0 Ht H1 H2 H3. cbn. split; [assumption|]. exists p.
      split; [reflexivity|]. left. exists t. now rewrite H1, H2. }
    assert (Hsusp : forall p' s0,
              sockets s0 = sockets s -> tasks s0 = tasks s ->
              conns s0 = conns s ->
              conns (suspend c p' s0) = conns s /\
              exists p0, Some p = Some p0 /\
                ((exists t0, t0 ∈ known_texts /\
                    sockets (suspend c p' s0) = sockets s ++ [(c, t0)] /\
                    tasks (suspend c p' s0) = delete c (tasks s)) \/
                 (exists p'', sockets (suspend c p' s0) = sockets s /\
                    tasks (suspend c p' s0) = <[c := p'']> (tasks s)))).
    { intros p' s0 H1 H2 H3. cbn. split; [assumption|]. exists p.
      split; [reflexivity|]. right. exists p'. now rewrite H2. }
    assert (K : forall t, In t known_texts -> t ∈ known_texts)
      by (intros t; apply list_elem_of_In).
    destruct p as [| |id]; injection Hs as <-.
    + unfold after_health.
      destruct (isServerRunning r); [|destruct (_ || _)].
      * apply Hend; auto. apply K. cbn. tauto.
      * apply Hend; auto. apply K. cbn. tauto.
      * apply Hsusp; reflexivity.
    + unfold after_deployment, on_catch.
      destruct (fetchLatestDeployment r) as [deployment|].
      * destruct (truthy deployment); cbn [negb].
        -- destruct (id <- get deployment "id";; _ <- restartDeployment_request id;; Normal id)
             as [id|].
           ++ apply Hsusp; reflexivity.
           ++ apply Hend; auto. apply K. cbn. tauto.
        -- apply (Hend _ (set_restarting false s)); auto. apply K. cbn. tauto.
      * apply Hend; auto. apply K. cbn. tauto.
    + unfold after_restart, on_catch.
      destruct (restartDeployment_reply r) as [ok|].
      * cbn. split; [reflexivity|]. eexists. split; [reflexivity|]. left.
        exists (Some (if ok then msg_starting else msg_error)).
        split; [|split; reflexivity].
        apply K. destruct ok; cbn; tauto.
      * apply Hend; auto. apply K. cbn. tauto.
  - destruct (timers s !! i) as [due|]; [|discriminate].
    destruct (Z.leb due (now s)); [|discriminate]. now injection Hs as <-.
Qed.

Lemma closed_end s0 c t (l : list (nat * option string)) :
  sockets s0 = l ++ [(c, t)] -> closed s0 = List.map fst l ++ [c].
Proof. intros H. unfold closed. now rewrite H, List.map_app. Qed.

(** X4: every connection that delivered a first chunk is, at any time,
    either still suspended at an await or has had its socket ended, never
    both and never ended twice; connections not yet seen have neither.  So
    no handler ends without closing its socket, and none closes it more
    than once. *)
Theorem X4_answered_exactly_once (s : state) :
  reachable s ->
  NoDup (closed s) /\
  (forall c, (c < conns s)%nat -> (c ∈ closed s <-> tasks s !! c = None)) /\
  (forall c, (conns s <= c)%nat -> (c ∉ closed s) /\ tasks s !! c = None).
Proof.
  intros Hreach.
  assert (A : NoDup (closed s) /\
              (forall c, c ∈ closed s ->
                 (c < conns s)%nat /\ (tasks s !! c = None)) /\
              (forall c, (c < conns s)%nat -> (tasks s !! c = None) ->
                 c ∈ closed s) /\
              (forall c p, tasks s !! c = Some p -> (c < conns s)%nat)).
  { revert s Hreach. apply reachable_ind.
    - intros t0 _. cbn. split; [constructor|]. split; [|split].
      + intros c H. now apply elem_of_nil in H.
      + intros c Hc. lia.
      + intros c p H. now rewrite lookup_empty in H.
    - intros s e s' _ (Hnd & Hcl & Hop & Hlt) Hs.
      pose proof (step_shape s e s' Hs) as Sh.
      destruct e as [d|data|c r|i].
      + destruct Sh as (E1 & E2 & E3). unfold closed. rewrite E1, E2, E3.
        repeat split; auto; apply Hcl; auto.
      + destruct Sh as (E3 & [[E1 E2]|[E1 E2]]).
        * rewrite (closed_end s' _ _ _ E1), E2, E3. fold (closed s).
          assert (Hfresh : conns s ∉ closed s).
          { intros H. apply Hcl in H. lia. }
          assert (Hnone : tasks s !! conns s = None).
          { destruct (tasks s !! conns s) as [p|] eqn:E; [|reflexivity].
            apply Hlt in E. lia. }
          split; [|split; [|split]].
          -- apply NoDup_app. split; [assumption|]. split.
             ++ intros x Hx Hx'. apply list_elem_of_singleton in Hx'.
                subst x. contradiction.
             ++ apply NoDup_singleton.
          -- intros c Hc. apply elem_of_app in Hc as [Hc|Hc].
             ++ destruct (Hcl c Hc). split; [lia|assumption].
             ++ apply list_elem_of_singleton in Hc. subst c. split; [lia|assumption].
          -- intros c Hc Hn. apply elem_of_app.
             destruct (decide (c = conns s)) as [->|Hne].
             ++ right. now apply list_elem_of_singleton.
             ++ left. apply Hop; [lia|assumption].
          -- intros c p Hc. apply Hlt in Hc. lia.
        * unfold closed. rewrite E1, E2, E3. fold (closed s).
          split; [assumption|]. split; [|split].
          -- intros c Hc. destruct (Hcl c Hc) as [H1 H2]. split; [lia|].
             rewrite lookup_insert_ne; [assumption|lia].
          -- intros c Hc Hn. apply lookup_insert_None in Hn as [Hn Hne].
             apply Hop; [lia|assumption].
          -- intros c p Hc. apply lookup_insert_Some in Hc as [[<- _]|[_ Hc]];
               [lia|]. apply Hlt in Hc. lia.
      + destruct Sh as (E3 & p & Hp & [(t & _ & E1 & E2)|(p' & E1 & E2)]).
        * rewrite (closed_end s' _ _ _ E1), E2, E3. fold (closed s).
          assert (Hopen : c ∉ closed s).
          { intros H. apply Hcl in H as [_ H]. congruence. }
          split; [|split; [|split]].
          -- apply NoDup_app. split; [assumption|]. split.
             ++ intros x Hx Hx'. apply list_elem_of_singleton in Hx'.
                subst x. contradiction.
             ++ apply NoDup_singleton.
          -- intros c0 Hc0. apply elem_of_app in Hc0 as [Hc0|Hc0].
             ++ destruct (Hcl c0 Hc0) as [H1 H2]. split; [assumption|].
                apply lookup_delete_None. now right.
             ++ apply list_elem_of_singleton in Hc0. subst c0.
                split; [exact (Hlt _ _ Hp)|]. apply lookup_delete_eq.
          -- intros c0 Hc0 Hn. apply elem_of_app.
             apply lookup_delete_None in Hn as [->|Hn].
             ++ right. now apply list_elem_of_singleton.
             ++ left. now apply Hop.
          -- intros c0 p0 Hc0. apply lookup_delete_Some in Hc0 as [_ Hc0].
             exact (Hlt _ _ Hc0).
        * unfold closed. rewrite E1, E2, E3. fold (closed s).
          split; [assumption|]. split; [|split].
          -- intros c0 Hc0. destruct (Hcl c0 Hc0) as [H1 H2].
             split; [assumption|].
             rewrite lookup_insert_ne; [assumption|congruence].
          -- intros c0 Hc0 Hn. apply lookup_insert_None in Hn as [Hn Hne].
             now apply Hop.
          -- intros c0 p0 Hc0.
             apply lookup_insert_Some in Hc0 as [[<- _]|[_ Hc0]];
               [exact (Hlt _ _ Hp) | exact (Hlt _ _ Hc0)].
      + destruct Sh as (E1 & E2 & E3). unfold closed. rewrite E1, E2, E3.
        repeat split; auto; apply Hcl; auto. }
  destruct A as (Hnd & Hcl & Hop & Hlt).
  split; [assumption|]. split.
  - intros c Hc. split; [apply Hcl | now apply Hop].
  - intros c Hc. split.
    + intros H. apply Hcl in H. lia.
    + destruct (tasks s !! c) as [p|] eqn:E; [|reflexivity].
      apply Hlt in E. lia.
Qed.

Lemma X4_answered_exactly_once_witness :
  let s := after_health 0 false (on_data "steve" (init t_start)) in
  NoDup (closed s) /\
  (forall c, (c < conns s)%nat -> (c ∈ closed s <-> tasks s !! c = None)) /\
  (forall c, (conns s <= c)%nat -> (c ∉ closed s) /\ tasks s !! c = None).
Proof.
  intros s. apply (X4_answered_exactly_once s).
  exists t_start, [Data "steve"; Reply 0 reply_down].
  split; [vm_compute; discriminate | vm_compute; reflexivity].
Defined.

(** X5: whatever the replies of the health endpoint and of the control
    plane are (errors, malformed bodies, exceptions included), what is
    written to a client is one of the five fixed messages or nothing at
    all: no reply content and no error text ever reaches a socket. *)
Theorem X5_only_fixed_texts (s : state) :
  reachable s ->
  forall c t, (c, t) ∈ sockets s -> t ∈ known_texts.
Proof.
  revert s. apply (reachable_ind
    (fun s => forall c t, (c, t) ∈ sockets s -> t ∈ known_texts)).
  - intros t0 _ c t H. now apply elem_of_nil in H.
  - intros s e s' _ IH Hs c0 t0 Hin.
    pose proof (step_shape s e s' Hs) as Sh.
    destruct e as [d|data|c r|i].
    + destruct Sh as (E1 & _). rewrite E1 in Hin. eauto.
    + destruct Sh as (_ & [[E1 _]|[E1 _]]); rewrite E1 in Hin; [|eauto].
      apply elem_of_app in Hin as [Hin|Hin]; [eauto|].
      apply list_elem_of_singleton in Hin. injection Hin as _ ->.
      apply list_elem_of_In. cbn. tauto.
    + destruct Sh as (_ & p & _ & [(t & Ht & E1 & _)|(p' & E1 & _)]);
        rewrite E1 in Hin; [|eauto].
      apply elem_of_app in Hin as [Hin|Hin]; [eauto|].
      apply list_elem_of_singleton in Hin. now injection Hin as _ ->.
    + destruct Sh as (E1 & _). rewrite E1 in Hin. eauto.
Qed.

Lemma X5_only_fixed_texts_witness :
  (None : option string) ∈ known_texts.
Proof.
  assert (Hreach : reachable (on_catch 0 (after_health 0 false
                                (on_data "steve" (init t_start))))).
  { exists t_start, [Data "steve"; Reply 0 reply_down; Reply 0 NetworkError].
    split; [vm_compute; discriminate | vm_compute; reflexivity]. }
  apply (X5_only_fixed_texts _ Hreach 0%nat None).
  apply list_elem_of_In. vm_compute. left. reflexivity.
Defined.

End Answers.

(* ===================================================================== *)
(** ** The lock: one attempt at a time, held through the cooldown *)
(* ===================================================================== *)

Section Lock.
Import Js Http Proxy.

Lemma now_step s e s' : step s e = Some s' -> now s <= now s'.
Proof.
  intros Hs. destruct e as [d|data|c r|i]; cbn in Hs.
  - destruct (Z.leb 0 d) eqn:E; [|discriminate]. injection Hs as <-.
    apply Z.leb_le in E. cbn. lia.
  - injection Hs as <-. unfold on_data.
    destruct (String.eqb _ _); [|destruct (includes _ _)]; cbn; lia.
  - destruct (tasks s !! c) as [[| |id]|]; [| | |discriminate];
      injection Hs as <-.
    + unfold after_health.
      destruct (isServerRunning r); [|destruct (_ || _)]; cbn; lia.
    + unfold after_deployment.
      destruct (fetchLatestDeployment r) as [deployment|];
        [destruct (truthy deployment); cbn;
         [destruct (id <- get deployment "id";; _ <- restartDeployment_request id;; Normal id)|]|];
        cbn; lia.
    + unfold after_restart. destruct (restartDeployment_reply r); cbn; lia.
  - destruct (timers s !! i) as [due|]; [|discriminate].
    destruct (Z.leb due (now s)); [|discriminate]. injection Hs as <-.
    cbn. lia.
Qed.

Lemma now_run evs : forall s s', run s evs = Some s' -> now s <= now s'.
Proof.
  induction evs as [|e evs IH]; intros s s' Hr; cbn in Hr.
  - injection Hr as <-. lia.
  - destruct (step s e) as [s1|] eqn:He; [|discriminate].
    apply now_step in He. apply IH in Hr. lia.
Qed.

(** X6: at any time at most one handler is inside a wake attempt (between
    taking the lock at line 158 and its return) and at most one release
    timer is pending, never both at once, and the lock is held whenever
    either exists.  So the timer of one attempt cannot free the lock under
    a running attempt: when a timer fires, no attempt is in progress and
    no other timer remains. *)
Theorem X6_one_attempt_at_a_time (s : state) :
  reachable s ->
  (forall c1 p1 c2 p2,
     tasks s !! c1 = Some p1 -> holds_lock p1 = true ->
     tasks s !! c2 = Some p2 -> holds_lock p2 = true -> c1 = c2) /\
  (length (timers s) <= 1)%nat /\
  (forall c p, tasks s !! c = Some p -> holds_lock p = true ->
     restarting s = true /\ timers s = []) /\
  (timers s <> [] -> restarting s = true) /\
  (forall i s', step s (Fire i) = Some s' ->
     restarting s' = false /\ timers s' = [] /\
     forall c p, tasks s' !! c = Some p -> holds_lock p = false).
Proof.
  intros Hreach.
  destruct (inv_reachable s Hreach) as [Hclock Hpast Hfree Hholder Htimer Hapart].
  split; [|split; [|split; [|split]]].
  - intros c1 p1 c2 p2 H1 L1 H2 L2.
    destruct (Hholder c2 p2 H2 L2) as (_ & _ & Hu & _). eauto.
  - destruct (timers s) as [|due l] eqn:E; [cbn; lia|].
    destruct (Htimer due) as (_ & Hone & _); [apply elem_of_cons; now left|].
    injection Hone as ->. cbn. lia.
  - intros c p Hc Hl. destruct (Hholder c p Hc Hl) as (H1 & H2 & _). auto.
  - intros Hne. destruct (timers s) as [|due l] eqn:E; [congruence|].
    destruct (Htimer due) as (Hr & _); [apply elem_of_cons; now left|].
    exact Hr.
  - intros i s' Hs. cbn in Hs.
    destruct (timers s !! i) as [due|] eqn:Hi; [|discriminate].
    destruct (Z.leb due (now s)); [|discriminate]. injection Hs as <-.
    destruct (Htimer due (list_elem_of_lookup_2 _ _ _ Hi)) as (_ & Ht & Hnone & _).
    rewrite Ht in Hi. apply list_lookup_singleton_Some in Hi as [-> _].
    cbn. rewrite Ht. repeat split. exact Hnone.
Qed.

Lemma X6_one_attempt_at_a_time_witness :
  let s := after_health 0 false (on_data "steve" (init t_start)) in
  restarting s = true /\ timers s = [].
Proof.
  intros s.
  assert (Hreach : reachable s).
  { exists t_start, [Data "steve"; Reply 0 reply_down].
    split; [vm_compute; discriminate | vm_compute; reflexivity]. }
  apply (proj1 (proj2 (proj2 (X6_one_attempt_at_a_time s Hreach)))
           0%nat AwaitDeployment); vm_compute; reflexivity.
Defined.

(** With the lock held and no handler inside a wake attempt, nothing but
    a timer changes the lock, the timers or the controller requests. *)
Lemma locked_idle_step s e s' :
  restarting s = true ->
  (forall c p, tasks s !! c = Some p -> holds_lock p = false) ->
  step s e = Some s' ->
  (forall i, e <> Fire i) ->
  restarting s' = true /\ timers s' = timers s /\
  (forall c p, tasks s' !! c = Some p -> holds_lock p = false) /\
  controller_requests s' = controller_requests s /\
  lastWake s' = lastWake s.
Proof.
  intros Hr Hnone Hs Hnf. destruct e as [d|data|c r|i]; cbn in Hs.
  - destruct (Z.leb 0 d); [|discriminate]. injection Hs as <-.
    repeat split; assumption.
  - injection Hs as <-. unfold on_data.
    destruct (String.eqb _ _); [|destruct (includes _ _)];
      [repeat split; assumption | repeat split; assumption |].
    split; [assumption|]. split; [reflexivity|]. split; [|split].
    + state_simpl. intros c p H.
      apply lookup_insert_Some in H as [[_ <-]|[_ H]]; eauto.
    + unfold controller_requests. cbn. rewrite List.filter_app. cbn.
      apply app_nil_r.
    + reflexivity.
  - destruct (tasks s !! c) as [p|] eqn:Hc; [|discriminate].
    pose proof (Hnone _ _ Hc) as Hl. destruct p; try discriminate.
    injection Hs as <-. unfold after_health. rewrite Hr.
    destruct (isServerRunning r); cbn;
      (split; [assumption|]; split; [reflexivity|]; split; [|split; reflexivity];
       state_simpl; intros c' p H; apply lookup_delete_Some in H as [_ H]; eauto).
  - now destruct (Hnf i).
Qed.

(** X7: when [restartDeployment] returns, with either answer, the lock
    stays held for at least [COOLDOWN_MS] from that moment: in every state
    reached before the clock shows the return time plus [COOLDOWN_MS] the
    lock is held, the one release timer is still pending and no request
    has been sent to the control plane since. *)
Theorem X7_lock_held_through_cooldown
    (s : state) (c : nat) (id : value) (r : reply) (ok : bool) :
  reachable s ->
  tasks s !! c = Some (AwaitRestart id) ->
  restartDeployment_reply r = Normal ok ->
  exists s1,
    step s (Reply c r) = Some s1 /\
    restarting s1 = true /\
    timers s1 = [now s + COOLDOWN_MS] /\
    forall evs s2, run s1 evs = Some s2 ->
      now s2 < now s + COOLDOWN_MS ->
      restarting s2 = true /\
      timers s2 = [now s + COOLDOWN_MS] /\
      controller_requests s2 = controller_requests s1.
Proof.
  intros Hreach Hc Hr.
  destruct (inv_reachable s Hreach) as [Hclock Hpast Hfree Hholder Htimer Hapart].
  destruct (Hholder c _ Hc eq_refl) as (Hlock & Ht & Huniq & _).
  pose (s1 := finish c (setTimeout_reset
                (socket_end c (Some (if ok then msg_starting else msg_error)) s))).
  exists s1.
  assert (Hs1 : step s (Reply c r) = Some s1).
  { cbn. rewrite Hc, Hr. reflexivity. }
  split; [exact Hs1|]. split; [exact Hlock|].
  assert (Ht1 : timers s1 = [now s + COOLDOWN_MS]).
  { subst s1. state_simpl. now rewrite Ht. }
  split; [exact Ht1|].
  assert (Hn1 : forall c' p, tasks s1 !! c' = Some p -> holds_lock p = false).
  { subst s1. state_simpl. intros c' p H.
    apply lookup_delete_Some in H as [Hne H].
    destruct (holds_lock p) eqn:E; [|reflexivity].
    destruct Hne. symmetry. eauto. }
  assert (G : forall evs s0 s2,
            (restarting s0 = true /\ timers s0 = [now s + COOLDOWN_MS] /\
             (forall c' p, tasks s0 !! c' = Some p -> holds_lock p = false) /\
             controller_requests s0 = controller_requests s1) \/
            now s + COOLDOWN_MS <= now s0 ->
            run s0 evs = Some s2 ->
            (restarting s2 = true /\ timers s2 = [now s + COOLDOWN_MS] /\
             (forall c' p, tasks s2 !! c' = Some p -> holds_lock p = false) /\
             controller_requests s2 = controller_requests s1) \/
            now s + COOLDOWN_MS <= now s2).
  { intros evs. induction evs as [|e evs IH]; intros s0 s2 H0 Hrun; cbn in Hrun.
    - now injection Hrun as <-.
    - destruct (step s0 e) as [s3|] eqn:He; [|discriminate].
      apply (IH s3 s2); [|exact Hrun].
      destruct H0 as [(A1 & A2 & A3 & A4)|H0].
      + destruct e as [d|data|c' r'|i].
        * destruct (locked_idle_step s0 _ s3 A1 A3 He) as (B1 & B2 & B3 & B4 & _);
            [discriminate|]. left. rewrite B2, B4. auto.
        * destruct (locked_idle_step s0 _ s3 A1 A3 He) as (B1 & B2 & B3 & B4 & _);
            [discriminate|]. left. rewrite B2, B4. auto.
        * destruct (locked_idle_step s0 _ s3 A1 A3 He) as (B1 & B2 & B3 & B4 & _);
            [discriminate|]. left. rewrite B2, B4. auto.
        * right. pose proof (now_step _ _ _ He) as Hmono.
          destruct (fire_releases s0 i s3 He) as (due & Hi & Hdue & _).
          rewrite A2 in Hi. apply list_lookup_singleton_Some in Hi as [_ <-].
          lia.
      + right. apply now_step in He. lia. }
  intros evs s2 Hrun Hbefore.
  destruct (G evs s1 s2) as [(B1 & B2 & _ & B4)|B]; auto; lia.
Qed.

Lemma X7_lock_held_through_cooldown_witness :
  let s := after_deployment 0 (fetchLatestDeployment reply_deployment_d1)
             (after_health 0 false (on_data "steve" (init t_start))) in
  exists s1,
    step s (Reply 0 reply_restart_ok) = Some s1 /\
    restarting s1 = true /\
    timers s1 = [now s + COOLDOWN_MS] /\
    forall evs s2, run s1 evs = Some s2 ->
      now s2 < now s + COOLDOWN_MS ->
      restarting s2 = true /\
      timers s2 = [now s + COOLDOWN_MS] /\
      controller_requests s2 = controller_requests s1.
Proof.
  intros s.
  assert (Hreach : reachable s).
  { exists t_start, [Data "steve"; Reply 0 reply_down; Reply 0 reply_deployment_d1].
    split; [vm_compute; discriminate | vm_compute; reflexivity]. }
  apply (X7_lock_held_through_cooldown s 0 (Val (JStr "d1")) reply_restart_ok true Hreach);
    vm_compute; reflexivity.
Defined.

(** X8: the cooldown ends.  When [restartDeployment] has returned, with
    either answer, and the release timer fires [COOLDOWN_MS] or more
    later, the next real connection attempt that finds the server down
    starts a new wake attempt: it takes the lock, stamps [lastWake] and
    sends the latest-deployment request. *)
Theorem X8_release_then_new_attempt
    (s : state) (c : nat) (id : value) (r : reply) (ok : bool)
    (d : Z) (data : string) (d1 d2 : Z) (r2 : reply) :
  reachable s ->
  tasks s !! c = Some (AwaitRestart id) ->
  restartDeployment_reply r = Normal ok ->
  COOLDOWN_MS <= d ->
  non_probe data -> isServerRunning r2 = false ->
  0 <= d1 -> 0 <= d2 ->
  exists s3,
    run s ([Reply c r; Tick d; Fire 0] ++ second_connection data d1 d2 r2 s)
      = Some s3 /\
    tasks s3 !! conns s = Some AwaitDeployment /\
    restarting s3 = true /\
    lastWake s3 = now s + d + d1 + d2 /\
    requests s3 = requests s ++
      [Request (conns s) HealthCheck (now s + d + d1);
       Request (conns s) LatestDeployment (now s + d + d1 + d2)].
Proof.
  intros Hreach Hc Hr Hd Hdata Hr2 H1 H2.
  destruct (inv_reachable s Hreach) as [Hclock Hpast Hfree Hholder Htimer Hapart].
  destruct (Hholder c _ Hc eq_refl) as (Hlock & Ht & _).
  pose (s1 := finish c (setTimeout_reset
                (socket_end c (Some (if ok then msg_starting else msg_error)) s))).
  pose (s2 := set_restarting false (set_timers [] (set_now (now s + d) s1))).
  assert (Hrun : run s [Reply c r; Tick d; Fire 0] = Some s2).
  { assert (Hd0 : Z.leb 0 d = true) by (apply Z.leb_le; unfold COOLDOWN_MS in Hd; lia).
    assert (Hdue : Z.leb (now s + COOLDOWN_MS) (now s + d) = true)
      by (apply Z.leb_le; lia).
    cbn. rewrite Hc, Hr. cbn. rewrite Hd0. cbn. rewrite Ht. cbn.
    rewrite Hdue. reflexivity. }
  destruct (second_connection_wakes s2 data d1 d2 r2 Hdata Hr2 H1 H2 eq_refl)
    as (s3 & G1 & G2 & G3 & G4 & G5 & G6).
  { subst s2 s1. cbn. lia. }
  exists s3. rewrite run_app, Hrun. split; [exact G1|].
  split; [exact G2|]. split; [exact G3|]. split; [|exact G6].
  rewrite G4. subst s2 s1. cbn. lia.
Qed.

Lemma X8_release_then_new_attempt_witness :
  let s := after_deployment 0 (fetchLatestDeployment reply_deployment_d1)
             (after_health 0 false (on_data "steve" (init t_start))) in
  exists s3,
    run s ([Reply 0 reply_restart_errors; Tick 60000; Fire 0]
             ++ second_connection "alex" 10 20 reply_down s) = Some s3 /\
    tasks s3 !! conns s = Some AwaitDeployment /\
    restarting s3 = true /\
    lastWake s3 = now s + 60000 + 10 + 20 /\
    requests s3 = requests s ++
      [Request (conns s) HealthCheck (now s + 60000 + 10);
       Request (conns s) LatestDeployment (now s + 60000 + 10 + 20)].
Proof.
  intros s.
  assert (Hreach : reachable s).
  { exists t_start, [Data "steve"; Reply 0 reply_down; Reply 0 reply_deployment_d1].
    split; [vm_compute; discriminate | vm_compute; reflexivity]. }
  apply (X8_release_then_new_attempt s 0 (Val (JStr "d1")) reply_restart_errors
           false 60000 "alex" 10 20 reply_down Hreach);
    try (vm_compute; reflexivity); try (vm_compute; discriminate).
  split; [discriminate | reflexivity].
Defined.




(** X10: an exception inside a wake attempt blocks the proxy for good.
    If the handler that holds the lock ends in its [catch] (the
    latest-deployment or the restart round trip throws, or the id cannot
    be put into the mutation text), the client's socket is closed without
    text and from then on, whatever happens, the lock stays held and no
    request is ever sent to the control plane again. *)
Theorem X10_throw_blocks_forever
    (s : state) (c : nat) (p : pc) (r : reply) :
  reachable s ->
  tasks s !! c = Some p ->
  (p = AwaitDeployment /\ fetchLatestDeployment r = Thrown) \/
  (p = AwaitDeployment /\ exists deployment,
     fetchLatestDeployment r = Normal deployment /\
     truthy deployment = true /\
     (id <- get deployment "id";; _ <- restartDeployment_request id;; Normal id)
       = Thrown) \/
  (exists id, p = AwaitRestart id /\ restartDeployment_reply r = Thrown) ->
  exists s1,
    step s (Reply c r) = Some s1 /\
    sockets s1 = sockets s ++ [(c, None)] /\
    requests s1 = requests s /\
    forall evs s2, run s1 evs = Some s2 ->
      restarting s2 = true /\
      controller_requests s2 = controller_requests s1.
Proof.
  intros Hreach Hc Hthrow.
  assert (Hl : holds_lock p = true).
  { destruct Hthrow as [[-> _]|[[-> _]|(id & -> & _)]]; reflexivity. }
  destruct (inv_reachable s Hreach) as [Hclock Hpast Hfree Hholder Htimer Hapart].
  destruct (Hholder c p Hc Hl) as (Hlock & Ht & Huniq & _).
  exists (on_catch c s).
  split.
  { cbn. rewrite Hc.
    destruct Hthrow as [[-> E]|[[-> (dep & E1 & E2 & E3)]|(id & -> & E)]].
    - now rewrite E.
    - rewrite E1. unfold after_deployment. rewrite E2. cbn [negb].
      now rewrite E3.
    - now rewrite E. }
  split; [reflexivity|]. split; [reflexivity|].
  assert (G : forall evs s0 s2,
            restarting s0 = true -> timers s0 = [] ->
            (forall c' p', tasks s0 !! c' = Some p' -> holds_lock p' = false) ->
            run s0 evs = Some s2 ->
            restarting s2 = true /\
            controller_requests s2 = controller_requests s0).
  { intros evs. induction evs as [|e evs IH]; intros s0 s2 A1 A2 A3 Hrun;
      cbn in Hrun.
    - injection Hrun as <-. now split.
    - destruct (step s0 e) as [s3|] eqn:He; [|discriminate].
      assert (Hnf : forall i, e <> Fire i).
      { intros i ->. cbn in He. rewrite A2 in He. discriminate. }
      destruct (locked_idle_step s0 e s3 A1 A3 He Hnf) as (B1 & B2 & B3 & B4 & _).
      rewrite A2 in B2.
      destruct (IH s3 s2 B1 B2 B3 Hrun) as [C1 C2].
      split; [exact C1|]. now rewrite C2. }
  intros evs s2 Hrun. apply (G evs (on_catch c s) s2); auto.
  state_simpl. intros c' p' H. apply lookup_delete_Some in H as [Hne H].
  destruct (holds_lock p') eqn:E; [|reflexivity].
  destruct Hne. symmetry. eauto.
Qed.

Lemma X10_throw_blocks_forever_witness :
  let s := after_health 0 false (on_data "steve" (init t_start)) in
  exists s1,
    step s (Reply 0 reply_bad_gateway) = Some s1 /\
    sockets s1 = sockets s ++ [(0%nat, None)] /\
    requests s1 = requests s /\
    forall evs s2, run s1 evs = Some s2 ->
      restarting s2 = true /\
      controller_requests s2 = controller_requests s1.
Proof.
  intros s.
  assert (Hreach : reachable s).
  { exists t_start, [Data "steve"; Reply 0 reply_down].
    split; [vm_compute; discriminate | vm_compute; reflexivity]. }
  apply (X10_throw_blocks_forever s 0 AwaitDeployment reply_bad_gateway Hreach).
  - vm_compute. reflexivity.
  - left. split; reflexivity.
Defined.

End Lock.

(* ===================================================================== *)
(** ** A wake attempt from end to end, and what each connection sends *)
(* ===================================================================== *)

Section Attempt.
Import Js Http Proxy.

(** X11: on the body shape of the deployments query,
    [fetchLatestDeployment] returns the node of the first edge and ignores
    the others, and returns [null] when there is no edge, whatever the
    HTTP status.  A truthy [errors] member (an empty array included) makes
    it return [null] even when deployments are listed; a falsy one ([null],
    [false], [0], the empty string) is ignored. *)
Theorem X11_latest_deployment_first_node
    (status : Z) (nodes : list json) (errors : json) :
  fetchLatestDeployment (Response status (Parsed (deployments_body nodes)))
    = Normal (match nodes with [] => Val JNull | n :: _ => Val n end) /\
  (truthy (Val errors) = true ->
   fetchLatestDeployment (Response status (Parsed (errors_body errors nodes)))
     = Normal (Val JNull)) /\
  (truthy (Val errors) = false ->
   fetchLatestDeployment (Response status (Parsed (errors_body errors nodes)))
     = fetchLatestDeployment (Response status (Parsed (deployments_body nodes)))).
Proof.
  split; [|split].
  - destruct nodes as [|n rest]; reflexivity.
  - intros H. cbn. cbn in H. now rewrite H.
  - intros H. cbn. cbn in H. now rewrite H.
Qed.

Lemma X11_latest_deployment_first_node_witness :
  fetchLatestDeployment
    (Response 200 (Parsed (errors_body (JArr []) [JObj [("id", JStr "d1")]])))
    = Normal (Val JNull) /\
  fetchLatestDeployment
    (Response 200 (Parsed (errors_body JNull [JObj [("id", JStr "d1")]])))
    = fetchLatestDeployment
        (Response 200 (Parsed (deployments_body [JObj [("id", JStr "d1")]]))).
Proof.
  split.
  - apply (proj1 (proj2 (X11_latest_deployment_first_node 200
                           [JObj [("id", JStr "d1")]] (JArr [])))).
    reflexivity.
  - apply (proj2 (proj2 (X11_latest_deployment_first_node 200
                           [JObj [("id", JStr "d1")]] JNull))).
    reflexivity.
Defined.

Lemma latest_first status n others :
  fetchLatestDeployment
    (Response status (Parsed (deployments_body (n :: others)))) = Normal (Val n).
Proof. reflexivity. Qed.

(** X12: a whole wake attempt.  A connection whose health check fails
    while the lock is free and the cooldown is over, whose deployments
    query lists a first node with a string id, and whose restart round
    trip returns, sends exactly two controller requests: the deployments
    query at the time of its cooldown check and the restart of that first
    node's id when the query returns.  It writes the starting message or
    the error message according to the restart answer, leaves the lock
    held with [lastWake] at the time of the check, and schedules the one
    release [COOLDOWN_MS] after the restart returned. *)
Theorem X12_wake_attempt_end_to_end
    (s : state) (c : nat) (r0 : reply) (status : Z)
    (fields : list (string * json)) (i : string) (others : list json)
    (r2 : reply) (ok : bool) (d1 d2 : Z) :
  tasks s !! c = Some AwaitHealth ->
  isServerRunning r0 = false ->
  restarting s = false ->
  COOLDOWN_MS <= now s - lastWake s ->
  assoc "id" fields = Val (JStr i) ->
  restartDeployment_reply r2 = Normal ok ->
  0 <= d1 -> 0 <= d2 ->
  exists s',
    run s [Reply c r0; Tick d1;
           Reply c (Response status
                      (Parsed (deployments_body (JObj fields :: others))));
           Tick d2; Reply c r2] = Some s' /\
    requests s' = requests s ++
      [Request c LatestDeployment (now s);
       Request c (DeploymentRestart (Val (JStr i))) (now s + d1)] /\
    sockets s' = sockets s ++
      [(c, Some (if ok then msg_starting else msg_error))] /\
    restarting s' = true /\
    lastWake s' = now s /\
    timers s' = timers s ++ [now s + d1 + d2 + COOLDOWN_MS] /\
    now s' = now s + d1 + d2 /\
    tasks s' = delete c (tasks s).
Proof.
  intros Hc Hr0 Hf Hcd Hid Hr2 H1 H2.
  apply Z.ltb_ge in Hcd. apply Z.leb_le in H1, H2.
  pose (sA := suspend c AwaitDeployment
                (send c LatestDeployment
                   (set_lastWake (now s) (set_restarting true s)))).
  pose (sB := set_now (now s + d1) sA).
  pose (sC := suspend c (AwaitRestart (Val (JStr i)))
                (send c (DeploymentRestart (Val (JStr i))) sB)).
  pose (sD := set_now (now s + d1 + d2) sC).
  assert (E1 : step s (Reply c r0) = Some sA).
  { cbn. rewrite Hc, Hr0. unfold after_health. rewrite Hf. cbn.
    now rewrite Hcd. }
  assert (E2 : step sA (Tick d1) = Some sB).
  { cbn. now rewrite H1. }
  assert (E3 : step sB (Reply c (Response status
                  (Parsed (deployments_body (JObj fields :: others))))) = Some sC).
  { unfold step.
    replace (tasks sB !! c) with (Some AwaitDeployment)
      by (symmetry; apply lookup_insert_eq).
    rewrite (latest_first status (JObj fields) others).
    unfold after_deployment. cbn [truthy negb].
    cbn [get bind]. rewrite Hid. reflexivity. }
  assert (E4 : step sC (Tick d2) = Some sD).
  { cbn. now rewrite H2. }
  exists (after_restart c (Normal ok) sD). split.
  - cbn [run]. rewrite E1, E2, E3, E4. unfold step.
    replace (tasks sD !! c) with (Some (AwaitRestart (Val (JStr i))))
      by (symmetry; apply lookup_insert_eq).
    now rewrite Hr2.
  - cbn. repeat split.
    + now rewrite <- app_assoc.
    + rewrite insert_insert_eq. apply delete_insert_eq.
Qed.

Lemma X12_wake_attempt_end_to_end_witness :
  let s := on_data "steve" (init t_start) in
  exists s',
    run s [Reply 0 reply_down; Tick 40;
           Reply 0 (Response 200
                      (Parsed (deployments_body
                         (JObj [("id", JStr "d1"); ("staticUrl", JStr "u")] :: []))));
           Tick 300; Reply 0 reply_restart_ok] = Some s' /\
    requests s' = requests s ++
      [Request 0 LatestDeployment (now s);
       Request 0 (DeploymentRestart (Val (JStr "d1"))) (now s + 40)] /\
    sockets s' = sockets s ++ [(0%nat, Some (if true then msg_starting else msg_error))] /\
    restarting s' = true /\
    lastWake s' = now s /\
    timers s' = timers s ++ [now s + 40 + 300 + COOLDOWN_MS] /\
    now s' = now s + 40 + 300 /\
    tasks s' = delete 0%nat (tasks s).
Proof.
  intros s.
  apply (X12_wake_attempt_end_to_end s 0 reply_down 200
           [("id", JStr "d1"); ("staticUrl", JStr "u")] "d1" [] reply_restart_ok
           true 40 300);
    try (vm_compute; reflexivity); try (vm_compute; discriminate).
Defined.

(** *** The calls of one connection *)

Lemma calls_of_app c s s' added :
  requests s' = requests s ++ added ->
  calls_of c s'
  = calls_of c s ++
    List.map req_call (List.filter (fun q => Nat.eqb (req_conn q) c) added).
Proof.
  intros H. unfold calls_of. now rewrite H, List.filter_app, List.map_app.
Qed.

Lemma calls_of_fresh c s :
  (forall q, q ∈ requests s -> (req_conn q < conns s)%nat) ->
  (conns s <= c)%nat -> calls_of c s = [].
Proof.
  intros H Hc. unfold calls_of.
  induction (requests s) as [|q l IH]; [reflexivity|]. cbn.
  assert (Hq : (req_conn q < conns s)%nat) by (apply H, elem_of_cons; now left).
  destruct (Nat.eqb_spec (req_conn q) c) as [E|E]; [lia|].
  apply IH. intros q' Hq'. apply H, elem_of_cons. now right.
Qed.

(** X13: each connection talks to the outside in a fixed order and at
    most once per call: a health check first, then at most one
    deployments query, then at most one restart.  At every moment the
    calls a connection has sent are determined by where its handler
    stands, and once the handler has ended they are a prefix of that
    sequence; so no restart is ever sent without a health check and a
    deployments query by the same connection before it, and no connection
    restarts twice. *)
Theorem X13_calls_in_order (s : state) (c : nat) :
  reachable s ->
  match tasks s !! c with
  | Some p => calls_of c s = calls_at p
  | None =>
      calls_of c s = [] \/ exists p, calls_of c s = calls_at p
  end.
Proof.
  intros Hreach. revert c. revert s Hreach.
  apply (reachable_ind (fun s => forall c,
    match tasks s !! c with
    | Some p => calls_of c s = calls_at p
    | None => calls_of c s = [] \/ exists p, calls_of c s = calls_at p
    end)).
  - intros t0 _ c. cbn. rewrite lookup_empty. now left.
  - intros s e s' Hreach IH Hs c.
    destruct (step_footprint s e s' Hs) as (_ & Hother & added & Hreq & Hadded).
    destruct (decide (subject s e = Some c)) as [Hsub|Hsub].
    + destruct e as [d|data|c0 r|i]; cbn in Hsub; try discriminate.
      * (* a new connection *)
        injection Hsub as <-. injection Hs as <-.
        destruct (ids_reachable s Hreach) as (_ & Hq & _).
        pose proof (calls_of_fresh (conns s) s Hq (Nat.le_refl _)) as Hfresh.
        unfold on_data.
        destruct (String.eqb _ _); [|destruct (includes _ _)].
        -- destruct (ids_reachable s Hreach) as (Ht & _ & _).
           replace (tasks _ !! conns s) with (tasks s !! conns s) by reflexivity.
           destruct (tasks s !! conns s) as [p|] eqn:E;
             [apply Ht in E; lia | now left].
        -- destruct (ids_reachable s Hreach) as (Ht & _ & _).
           replace (tasks _ !! conns s) with (tasks s !! conns s) by reflexivity.
           destruct (tasks s !! conns s) as [p|] eqn:E;
             [apply Ht in E; lia | now left].
        -- state_simpl. rewrite lookup_insert_eq.
           unfold calls_of in *. cbn. rewrite List.filter_app, List.map_app.
           rewrite Hfresh. cbn. now rewrite Nat.eqb_refl.
      * (* the connection whose round trip ended *)
        injection Hsub as ->. cbn in Hs. specialize (IH c).
        destruct (tasks s !! c) as [[| |id]|] eqn:Hc; [| | |discriminate];
          injection Hs as <-.
        -- unfold after_health.
           destruct (isServerRunning r); [|destruct (_ || _)]; state_simpl;
             rewrite ?lookup_delete_eq, ?lookup_insert_eq.
           ++ right. now exists AwaitHealth.
           ++ right. now exists AwaitHealth.
           ++ unfold calls_of in *. cbn. rewrite List.filter_app, List.map_app.
              rewrite IH. cbn. now rewrite Nat.eqb_refl.
        -- unfold after_deployment.
           destruct (fetchLatestDeployment r) as [deployment|];
             [destruct (truthy deployment); cbn [negb];
              [destruct (id <- get deployment "id";; _ <- restartDeployment_request id;; Normal id)
                 as [id|]|]|];
             state_simpl; rewrite ?lookup_delete_eq, ?lookup_insert_eq.
           ++ unfold calls_of in *. cbn. rewrite List.filter_app, List.map_app.
              rewrite IH. cbn. now rewrite Nat.eqb_refl.
           ++ right. now exists AwaitDeployment.
           ++ right. now exists AwaitDeployment.
           ++ right. now exists AwaitDeployment.
        -- unfold after_restart.
           destruct (restartDeployment_reply r) as [ok|]; state_simpl;
             rewrite ?lookup_delete_eq; right; now exists (AwaitRestart id).
    + rewrite (Hother c Hsub), (calls_of_app c s s' added Hreq).
      assert (E : List.filter (fun q => Nat.eqb (req_conn q) c) added = []).
      { clear Hreq. induction added as [|q l IHl]; [reflexivity|]. cbn.
        destruct (Nat.eqb_spec (req_conn q) c) as [Eq|Eq].
        - destruct (Hadded q) as [Hq _]; [apply elem_of_cons; now left|].
          congruence.
        - apply IHl. intros q' Hq'. apply Hadded, elem_of_cons. now right. }
      rewrite E. cbn. rewrite app_nil_r. apply IH.
Qed.

Lemma X13_calls_in_order_witness :
  calls_of 0 (after_restart 0 (Normal true)
    (after_deployment 0 (fetchLatestDeployment reply_deployment_d1)
       (after_health 0 false (on_data "steve" (init t_start)))))
  = [] \/
  exists p,
    calls_of 0 (after_restart 0 (Normal true)
      (after_deployment 0 (fetchLatestDeployment reply_deployment_d1)
         (after_health 0 false (on_data "steve" (init t_start)))))
    = calls_at p.
Proof.
  assert (Hreach : reachable (after_restart 0 (Normal true)
    (after_deployment 0 (fetchLatestDeployment reply_deployment_d1)
       (after_health 0 false (on_data "steve" (init t_start)))))).
  { exists t_start, [Data "steve"; Reply 0 reply_down;
                     Reply 0 reply_deployment_d1; Reply 0 reply_restart_ok].
    split; [vm_compute; discriminate | vm_compute; reflexivity]. }
  exact (X13_calls_in_order _ 0 Hreach).
Defined.

End Attempt.
